(** * Shopify festive notifications: the order-notification pipeline

    A shallow embedding of the server side of the app:

    - [app/helpers/hookdeck-publisher.ts]: [publishToHookdeck],
      [fetchProductImage], [transformOrderToNotification] and
      [publishOrderNotification];
    - the module-level credential guard of [app/helpers/webhooks.ts], and
      its helpers [updateHookdeckConnection], [getWebhookSubscriptions],
      [createOrdersWebhook] and [deleteWebhook];
    - the two revisions of the [orders/create] webhook route;
    - [scripts/setup-hookdeck.ts]: [getShopifyApiSecret],
      [validatePrerequisites], [createHookdeckConnection],
      [createAblyConnection] and [confirm].

    The TypeScript is dynamically typed where it matters ([order: any],
    [admin: any], [data: any]), so the embedding works on JavaScript values
    and follows the language's coercions ([||], [&&], [+], property reads,
    optional chaining, template literals) instead of assuming a record
    type for the payload.  Exceptions, the calls made to the outside world
    and the order in which concurrent lookups complete are explicit.
    Logging ([console.error], [console.log], the debug log file) does not
    change what a function returns or sends and is left out, except where
    building the logged text can itself throw. *)

From Stdlib Require Import ZArith DecimalString Ascii.
From stdpp Require Import gmap strings list fin_maps.

Set Warnings "-register-all".
Set Default Proof Using "Type".
Open Scope Z_scope.

(** ** JavaScript values *)

(** Numbers.  A webhook payload carries quantities, weights and identifiers
    as integers; [Int z] is the double that represents the integer [z], and
    [NaN] is what arithmetic on a missing operand yields.  Addition on
    doubles agrees with addition on [Z] as long as the magnitudes stay
    below 2^53, which is the range the embedding covers.  Fractions,
    infinities and the negative zero are not represented. *)
Inductive number :=
| NaN
| Int (z : Z).

(** What [JSON.parse] can produce, plus [undefined] and [NaN], which the
    program itself introduces.  Objects are finite maps from property names
    to values. *)
Inductive value :=
| VUndefined
| VNull
| VBool (b : bool)
| VNumber (n : number)
| VString (s : string)
| VArray (l : list value)
| VObject (o : gmap string value).

(** What can be thrown.  [TypeError] and [SyntaxError] stand for the
    engine's own errors, whose messages differ between engines; [Error]
    is [new Error(message)]; [ThrownResponse] is a [Response] object used
    as an exception, identified by its status code. *)
Inductive exn :=
| TypeError
| SyntaxError
| Error (message : string)
| ThrownResponse (status : Z).

Inductive result (A : Type) :=
| Ok (a : A)
| Err (e : exn).
Arguments Ok {A} a.
Arguments Err {A} e.

#[export] Instance result_ret : MRet result := @Ok.
#[export] Instance result_bind : MBind result :=
  fun A B f r => match r with Ok a => f a | Err e => Err e end.
#[export] Instance result_fmap : FMap result :=
  fun A B f r => match r with Ok a => Ok (f a) | Err e => Err e end.

(** *** Coercions *)

(** [ToBoolean]: the operand test of [!], [&&], [||] and [if]. *)
Definition truthy (v : value) : bool :=
  match v with
  | VUndefined | VNull => false
  | VBool b => b
  | VNumber NaN => false
  | VNumber (Int z) => negb (z =? 0)
  | VString s => negb (String.eqb s "")
  | VArray _ | VObject _ => true
  end.

(** [a || b] on evaluated operands. *)
Definition js_or (a b : value) : value := if truthy a then a else b.

(** [v.k], for a property name [k] that no prototype defines (every name
    the program reads is of that kind): reading from [undefined] or [null]
    throws, an object yields its own property or [undefined], and any
    other value yields [undefined]. *)
Definition get (k : string) (v : value) : result value :=
  match v with
  | VUndefined | VNull => Err TypeError
  | VObject o => Ok (default VUndefined (o !! k))
  | _ => Ok VUndefined
  end.

(** [v?.k]: as [v.k], but [undefined] where [v.k] would throw. *)
Definition opt_get (k : string) (v : value) : value :=
  match v with
  | VObject o => default VUndefined (o !! k)
  | _ => VUndefined
  end.

Definition string_of_Z (z : Z) : string := NilZero.string_of_int (Z.to_int z).

Definition string_of_number (n : number) : string :=
  match n with
  | NaN => "NaN"
  | Int z => string_of_Z z
  end.

(** [ToString], as used by template literals and by [+].  An array is
    joined with commas, [undefined] and [null] elements printing as the
    empty string; a plain object prints as [[object Object]], unless it
    has an own property [toString], which in decoded JSON is never a
    function, so that no method is left to convert it. *)
Fixpoint ToString (v : value) : result string :=
  match v with
  | VUndefined => Ok "undefined"
  | VNull => Ok "null"
  | VBool true => Ok "true"
  | VBool false => Ok "false"
  | VNumber n => Ok (string_of_number n)
  | VString s => Ok s
  | VArray l =>
      (fix join (l : list value) : result string :=
         match l with
         | [] => Ok ""
         | e :: rest =>
             match (match e with
                    | VUndefined | VNull => Ok ""
                    | _ => ToString e
                    end) with
             | Err x => Err x
             | Ok s =>
                 match rest with
                 | [] => Ok s
                 | _ => match join rest with
                        | Ok r => Ok (s +:+ "," +:+ r)
                        | Err x => Err x
                        end
                 end
             end
         end) l
  | VObject o =>
      match o !! "toString" with
      | Some _ => Err TypeError
      | None => Ok "[object Object]"
      end
  end.

(** [ToPrimitive]: arrays and objects are converted through [ToString]. *)
Definition ToPrimitive (v : value) : result value :=
  match v with
  | VArray _ | VObject _ => VString <$> ToString v
  | _ => Ok v
  end.

(** [ToNumber] on a primitive that is not a string. *)
Definition ToNumber (v : value) : number :=
  match v with
  | VNull => Int 0
  | VBool true => Int 1
  | VBool false => Int 0
  | VNumber n => n
  | _ => NaN
  end.

Definition number_add (a b : number) : number :=
  match a, b with
  | Int x, Int y => Int (x + y)
  | _, _ => NaN
  end.

Definition is_string (v : value) : bool :=
  match v with VString _ => true | _ => false end.

(** [a + b]: both operands are made primitive; if either is then a string
    the result is the concatenation of their string forms, otherwise the
    sum of their numeric forms. *)
Definition js_add (a b : value) : result value :=
  pa ← ToPrimitive a;
  pb ← ToPrimitive b;
  if is_string pa || is_string pb
  then sa ← ToString pa; sb ← ToString pb; Ok (VString (sa +:+ sb))
  else Ok (VNumber (number_add (ToNumber pa) (ToNumber pb))).

(** *** JSON.stringify *)

(** The document [JSON.stringify] writes, as a tree: properties whose
    value is [undefined] are left out, [undefined] inside an array and
    [NaN] become [null]. *)
Inductive json :=
| JNull
| JBool (b : bool)
| JNumber (z : Z)
| JString (s : string)
| JArray (l : list json)
| JObject (o : gmap string json).

Fixpoint stringify (v : value) : option json :=
  match v with
  | VUndefined => None
  | VNull => Some JNull
  | VBool b => Some (JBool b)
  | VNumber NaN => Some JNull
  | VNumber (Int z) => Some (JNumber z)
  | VString s => Some (JString s)
  | VArray l => Some (JArray (map (fun e => default JNull (stringify e)) l))
  | VObject o => Some (JObject (omap stringify o))
  end.

(** ** The outside world and the effect monad *)

(** The request [fetch] sends.  The header record is a JavaScript object
    literal, hence a map keyed by the names as written; the body is the
    result of [JSON.stringify]. *)
Record HttpRequest := {
  url : string;
  method : string;
  headers : gmap string string;
  body : option json;
}.

(** The response [fetch] resolves to: [text] is the body read as text and
    [json_body] the body decoded as JSON, absent when it does not parse. *)
Record HttpResponse := {
  status : Z;
  statusText : string;
  text : string;
  json_body : option value;
}.

(** [response.ok] *)
Definition ok (r : HttpResponse) : bool := (200 <=? status r) && (status r <=? 299).

Inductive FetchOutcome :=
| FetchRejects (e : exn)
| FetchResolves (r : HttpResponse).

(** An answer of the Admin GraphQL client: the call throws or rejects, or
    it resolves to a response whose [json()] either rejects or yields the
    decoded body.  Every call is answered in the end: the source sets no
    timeout, and a call that never returns is not represented. *)
Inductive GraphqlOutcome :=
| GraphqlRejects (e : exn)
| GraphqlResolves (decoded : result value).

(** What a run does that is visible from outside, in order: the product
    query sent with a given [id] variable, the HTTP request sent.  An
    [Invoke] event marks the entry into one of the functions of the
    publisher module; it is there to state which functions a request
    reaches. *)
Inductive event :=
| Invoke (fn : string)
| GraphqlQuery (id : string)
| HttpFetch (req : HttpRequest).

(** The authenticated query capability.  Its answer may depend on
    everything that happened before the call. *)
Record Admin := {
  graphql : list event -> string -> GraphqlOutcome;
}.

(** The process environment and the network. *)
Record World := {
  env : gmap string string;
  fetch : list event -> HttpRequest -> FetchOutcome;
}.

(** A computation extends the history and returns or throws. *)
Definition M (A : Type) : Type := list event -> list event * result A.

Definition ret {A} (a : A) : M A := fun t => (t, Ok a).
Definition throw {A} (e : exn) : M A := fun t => (t, Err e).
Definition bind {A B} (m : M A) (f : A -> M B) : M B :=
  fun t => match m t with
           | (t', Ok a) => f a t'
           | (t', Err e) => (t', Err e)
           end.

#[export] Instance M_ret : MRet M := @ret.
#[export] Instance M_bind : MBind M := fun A B f m => bind m f.

(** A pure step that may throw. *)
Definition lift {A} (r : result A) : M A := fun t => (t, r).

(** [try { m } catch (e) { h e }] *)
Definition try_catch {A} (m : M A) (h : exn -> M A) : M A :=
  fun t => match m t with
           | (t', Ok a) => (t', Ok a)
           | (t', Err e) => h e t'
           end.

Definition emit (ev : event) : M unit := fun t => (t ++ [ev], Ok tt).

(** *** Promises *)

(** A promise is represented by the way it eventually settles: fulfilled
    with a value or rejected with an exception. *)
Abbreviation Promise := result.

(** Calling an [async] function never throws: it returns a promise that
    settles as the body returns or throws.  Every call the bodies of this
    program make to the outside world is issued before their first
    suspension, so the events of the body are those of the call. *)
Definition async {A} (m : M A) : M (Promise A) :=
  fun t => match m t with (t', r) => (t', Ok r) end.

(** [await p] *)
Definition await {A} (p : Promise A) : M A := lift p.

(** [Promise.all].  The promises settle one at a time in an order the
    program does not control: at each step the scheduler's next number
    selects one of the promises still pending (every order of settlement
    arises from some schedule).  A fulfilled promise stores its value in
    the slot of its own index; a rejected one rejects the whole.  Once
    nothing is pending the slots are the result.  There is one step per
    promise, which is what [fuel] counts. *)
Definition next_to_settle {A} (sched : list nat) (pending : list A) : nat :=
  (hd 0 sched `mod` length pending)%nat.

Fixpoint settle {A} (fuel : nat) (sched : list nat)
    (pending : list (nat * Promise A)) (values : list (option A))
    : result (list (option A)) :=
  match fuel with
  | O => Ok values
  | S fuel' =>
      match pending !! next_to_settle sched pending with
      | None => Ok values
      | Some (i, Ok v) =>
          settle fuel' (tl sched)
            (delete (next_to_settle sched pending) pending)
            (<[i := Some v]> values)
      | Some (_, Err e) => Err e
      end
  end.

Definition Promise_all {A} (sched : list nat) (promises : list (Promise A))
    : Promise (list A) :=
  match settle (length promises) sched (imap pair promises)
          (replicate (length promises) None) with
  | Ok values => Ok (omap id values)
  | Err e => Err e
  end.

(** [l.map(f)] with a callback that acts on the world: the calls are
    made in order, one per element. *)
Fixpoint array_map {A B} (f : A -> M B) (l : list A) : M (list B) :=
  match l with
  | [] => ret []
  | a :: l' => b ← f a; bs ← array_map f l'; ret (b :: bs)
  end.

(** [l.reduce(f, init)] with a callback that may throw. *)
Fixpoint reduce {A B} (f : B -> A -> result B) (init : B) (l : list A) : result B :=
  match l with
  | [] => Ok init
  | a :: l' => b ← f init a; reduce f b l'
  end.

(** ** app/helpers/hookdeck-publisher.ts *)

(** [interface OrderNotificationLineItem].  The fields are declared
    [string], [number] or [boolean], but they are filled from an untyped
    payload, so each holds whatever value the payload had. *)
Record OrderNotificationLineItem := {
  name : value;
  title : value;
  quantity : value;
  price : value;
  sku : value;
  product_id : value;
  variant_id : value;
  grams : value;
  vendor : value;
  requires_shipping : value;
  taxable : value;
  gift_card : value;
  image : value;
}.

(** [interface OrderNotification], with the fields the transformation
    sets. *)
Record OrderNotification := {
  created_at : value;
  currency : value;
  total_price : value;
  subtotal_price : value;
  total_tax : value;
  total_discounts : value;
  item_count : value;
  line_items : list OrderNotificationLineItem;
  shop : value;
  test : value;
  total_weight : value;
  tags : value;
  source_name : value;
}.

(** The records as the JavaScript objects they are. *)
Definition line_item_value (i : OrderNotificationLineItem) : value :=
  VObject (list_to_map [
    ("name", name i); ("title", title i); ("quantity", quantity i);
    ("price", price i); ("sku", sku i); ("product_id", product_id i);
    ("variant_id", variant_id i); ("grams", grams i); ("vendor", vendor i);
    ("requires_shipping", requires_shipping i); ("taxable", taxable i);
    ("gift_card", gift_card i); ("image", image i)]).

Definition notification_value (n : OrderNotification) : value :=
  VObject (list_to_map [
    ("created_at", created_at n); ("currency", currency n);
    ("total_price", total_price n); ("subtotal_price", subtotal_price n);
    ("total_tax", total_tax n); ("total_discounts", total_discounts n);
    ("item_count", item_count n);
    ("line_items", VArray (line_item_value <$> line_items n));
    ("shop", shop n); ("test", test n); ("total_weight", total_weight n);
    ("tags", tags n); ("source_name", source_name n)]).

Section Publisher.

Context (world : World).

(** [await fetch(url, init)] *)
Definition do_fetch (req : HttpRequest) : M HttpResponse :=
  fun t => match fetch world t req with
           | FetchRejects e => (t ++ [HttpFetch req], Err e)
           | FetchResolves r => (t ++ [HttpFetch req], Ok r)
           end.

(** [await response.json()] *)
Definition response_json (r : HttpResponse) : M value :=
  match json_body r with
  | Some v => ret v
  | None => throw SyntaxError
  end.

Definition publishToHookdeck (sourceName : string) (data : value)
    (custom : option (gmap string string)) : M value :=
  _ ← emit (Invoke "publishToHookdeck");
  match env world !! "HOOKDECK_API_KEY" with
  | None => throw (Error "HOOKDECK_API_KEY environment variable is not set")
  | Some apiKey =>
      if String.eqb apiKey ""
      then throw (Error "HOOKDECK_API_KEY environment variable is not set")
      else
        try_catch
          (response ← do_fetch {|
               url := "https://hkdk.events/v1/publish";
               method := "POST";
               headers :=
                 default ∅ custom ∪
                 {[ "Content-Type" := "application/json";
                    "Authorization" := "Bearer " +:+ apiKey;
                    "X-Hookdeck-Source-Name" := sourceName ]};
               body := stringify (VObject {[ "data" := data ]}) |};
           if negb (ok response)
           then throw (Error ("Hookdeck publish failed: "
                              +:+ string_of_Z (status response) +:+ " "
                              +:+ statusText response +:+ " - "
                              +:+ text response))
           else response_json response)
          (fun error => throw error)
  end.

(** [await admin.graphql(query, { variables: { id } })] followed by
    [await response.json()]. *)
Definition graphql_json (admin : Admin) (id : string) : M value :=
  fun t => match graphql admin t id with
           | GraphqlRejects e => (t ++ [GraphqlQuery id], Err e)
           | GraphqlResolves r => (t ++ [GraphqlQuery id], r)
           end.

Definition fetchProductImage (admin : Admin) (productId : value) : M value :=
  _ ← emit (Invoke "fetchProductImage");
  try_catch
    (id ← lift (ToString productId);
     data ← graphql_json admin ("gid://shopify/Product/" +:+ id);
     ret (opt_get "url"
            (opt_get "featuredImage"
               (opt_get "product" (opt_get "data" data)))))
    (fun error =>
       (* the error is logged with the product identifier in a template
          literal, which converts it to a string once more *)
       _ ← lift (ToString productId);
       ret VUndefined).

(** The [async (item) => { … }] callback of the line-item map. *)
Definition line_item_callback (admin : option Admin) (item : value)
    : M OrderNotificationLineItem :=
  image ← match admin with
          | Some a =>
              pid ← lift (get "product_id" item);
              if truthy pid then fetchProductImage a pid else ret VUndefined
          | None => ret VUndefined
          end;
  name ← lift (get "name" item);
  title ← lift (get "title" item);
  quantity ← lift (get "quantity" item);
  price ← lift (get "price" item);
  sku ← lift (get "sku" item);
  product_id ← lift (get "product_id" item);
  variant_id ← lift (get "variant_id" item);
  grams ← lift (get "grams" item);
  vendor ← lift (get "vendor" item);
  requires_shipping ← lift (get "requires_shipping" item);
  taxable ← lift (get "taxable" item);
  gift_card ← lift (get "gift_card" item);
  ret {| name := name; title := title; quantity := quantity; price := price;
         sku := sku; product_id := product_id; variant_id := variant_id;
         grams := grams; vendor := vendor;
         requires_shipping := requires_shipping; taxable := taxable;
         gift_card := gift_card; image := image |}.

(** [a.map(f)] needs [a] to be an array: no other decoded value has a
    callable [map]. *)
Definition as_array (v : value) : result (list value) :=
  match v with
  | VArray l => Ok l
  | _ => Err TypeError
  end.

(** The optional [shopDomain?: string] argument as a value. *)
Definition optional_string (s : option string) : value :=
  match s with
  | Some s => VString s
  | None => VUndefined
  end.

(** [sched] is the order in which the line-item promises settle. *)
Definition transformOrderToNotification (sched : list nat) (order : value)
    (shopDomain : option string) (admin : option Admin) : M OrderNotification :=
  _ ← emit (Invoke "transformOrderToNotification");
  li ← lift (get "line_items" order);
  items ← lift (as_array (js_or li (VArray [])));
  promises ← array_map (fun item => async (line_item_callback admin item)) items;
  lineItems ← await (Promise_all sched promises);
  itemCount ← lift (reduce (fun sum item => js_add sum (quantity item))
                      (VNumber (Int 0)) lineItems);
  created_at ← lift (get "created_at" order);
  currency ← lift (get "currency" order);
  total_price ← lift (get "total_price" order);
  subtotal_price ← lift (get "subtotal_price" order);
  total_tax ← lift (get "total_tax" order);
  total_discounts ← lift (get "total_discounts" order);
  shop ← (if truthy (optional_string shopDomain)
          then ret (optional_string shopDomain)
          else shop_domain ← lift (get "shop_domain" order);
               ret (js_or shop_domain (VString "")));
  test ← lift (get "test" order);
  total_weight ← lift (get "total_weight" order);
  tags ← lift (get "tags" order);
  source_name ← lift (get "source_name" order);
  ret {| created_at := created_at; currency := currency;
         total_price := total_price; subtotal_price := subtotal_price;
         total_tax := total_tax; total_discounts := total_discounts;
         item_count := itemCount; line_items := lineItems;
         shop := shop; test := js_or test (VBool false);
         total_weight := total_weight; tags := tags;
         source_name := source_name |}.

Definition publishOrderNotification (sched : list nat) (order : value)
    (shopDomain : option string) (admin : option Admin) : M value :=
  _ ← emit (Invoke "publishOrderNotification");
  try_catch
    (notification ← transformOrderToNotification sched order shopDomain admin;
     result ← publishToHookdeck "shopify-notifications-publish"
                (notification_value notification) None;
     _ ← lift (get "id" result);
     ret result)
    (fun error => throw error).

End Publisher.

(** ** app/helpers/webhooks.ts: module top level *)

Record HookdeckClient := {
  token : string;
}.


(** ** The orders/create webhook route *)

Record WebhookRequest := {
  request_topic : string;
  request_shop : string;
  request_signature : string;
  request_body : string;
}.

(** What [authenticate.webhook] resolves to: [{ topic, shop, admin,
    payload }]. *)
Record WebhookContext := {
  ctx_topic : string;
  ctx_shop : string;
  ctx_admin : option Admin;
  ctx_payload : value;
}.

(** [new Response()] *)
Definition new_Response : HttpResponse :=
  {| status := 200; statusText := ""; text := ""; json_body := None |}.

Section Authenticate.

(** The process-wide shared secret, the signature function, the JSON
    decoder and the session store that yields the admin capability of a
    shop, when the shop has one. *)
Context (secret : string) (sign : string -> string -> string).
Context (decode : string -> value) (session : string -> option Admin).

(** Modelled from the spec: [authenticate.webhook] of [app/shopify.server],
    which the routes import and which is not among the sources.  The
    request's signature must validate against the shared secret; failure
    yields an immediate rejection response, thrown as the framework's
    routes do, and no further processing.  Topic and shop come with the
    request, the payload is the decoded body, and the admin capability is
    present only when there is a session for the shop. *)
Definition authenticate_webhook (request : WebhookRequest) : M WebhookContext :=
  if String.eqb (request_signature request) (sign secret (request_body request))
  then ret {| ctx_topic := request_topic request;
              ctx_shop := request_shop request;
              ctx_admin := session (request_shop request);
              ctx_payload := decode (request_body request) |}
  else throw (ThrownResponse 401).

End Authenticate.

(** The route that publishes. *)
Module WebhooksOrdersCreate.
Section Route.

Context (world : World) (sched : list nat).
Context (secret : string) (sign : string -> string -> string).
Context (decode : string -> value) (session : string -> option Admin).

Definition action (request : WebhookRequest) : M HttpResponse :=
  ctx ← authenticate_webhook secret sign decode session request;
  try_catch
    (result ← publishOrderNotification world sched
                (ctx_payload ctx) (Some (ctx_shop ctx)) (ctx_admin ctx);
     ret new_Response)
    (fun error => throw error).

End Route.
End WebhooksOrdersCreate.

(** The earlier revision of the route, [app/routes/webhooks.orders.create.tsx]
    as scaffolded: it only logs the payload. *)
Module WebhooksOrdersCreateScaffold.
Section Route.

Context (secret : string) (sign : string -> string -> string).
Context (decode : string -> value) (session : string -> option Admin).

Definition action (request : WebhookRequest) : M HttpResponse :=
  ctx ← authenticate_webhook secret sign decode session request;
  match ctx_admin ctx with
  | None => throw (ThrownResponse (status new_Response))
  | Some _ => ret new_Response
  end.

End Route.
End WebhooksOrdersCreateScaffold.

(** The GraphQL documents of [app/helpers/webhooks.ts], as written. *)
Definition WebhookSubscriptionList_document : string :=
  "
    #graphql
    query WebhookSubscriptionList {
      webhookSubscriptions(first: 10) {
        edges {
          node {
            id
            topic
            endpoint {
              __typename
              ... on WebhookHttpEndpoint {
                callbackUrl
              }
            }
            createdAt
            updatedAt
            apiVersion {
              handle
            }
            format
            includeFields
            metafieldNamespaces
          }
        }
      }
    }
  ".

Definition webhookSubscriptionCreate_document : string :=
  "
      #graphql
      mutation webhookSubscriptionCreate(
        $topic: WebhookSubscriptionTopic!
        $webhookSubscription: WebhookSubscriptionInput!
      ) {
        webhookSubscriptionCreate(
          topic: $topic
          webhookSubscription: $webhookSubscription
        ) {
          webhookSubscription {
            id
            topic
            format
            includeFields
            endpoint {
              __typename
              ... on WebhookHttpEndpoint {
                callbackUrl
              }
            }
          }
        }
      }
    ".

Definition webhookSubscriptionDelete_document : string :=
  "
      #graphql
      mutation webhookSubscriptionDelete($id: ID!) {
        webhookSubscriptionDelete(id: $id) {
          userErrors {
            field
            message
          }
          deletedWebhookSubscriptionId
        }
      }
    ".


(** ** Operations: app/helpers/webhooks.ts and scripts/setup-hookdeck.ts *)

(** What these programs do to the outside, in order: an upsert through
    the Hookdeck SDK (with the client's token), a request to the Admin
    GraphQL client (the document and the options object), an HTTP request,
    a read of a file. *)
Inductive call :=
| ConnectionUpsert (token : string) (request : value)
| GraphqlRequest (document : string) (options : value)
| HttpCall (req : HttpRequest)
| FileRead (path : string).

(** How a run ends: it returns, it throws, or the process exits. *)
Inductive outcome (A : Type) :=
| Returned (a : A)
| Threw (e : exn)
| Exited (code : Z).
Arguments Returned {A} a.
Arguments Threw {A} e.
Arguments Exited {A} code.

Definition Proc (A : Type) : Type := list call -> list call * outcome A.

Definition proc_ret {A} (a : A) : Proc A := fun t => (t, Returned a).
Definition proc_bind {A B} (m : Proc A) (f : A -> Proc B) : Proc B :=
  fun t => match m t with
           | (t', Returned a) => f a t'
           | (t', Threw e) => (t', Threw e)
           | (t', Exited code) => (t', Exited code)
           end.

#[export] Instance Proc_ret : MRet Proc := @proc_ret.
#[export] Instance Proc_bind : MBind Proc := fun A B f m => proc_bind m f.

Definition proc_throw {A} (e : exn) : Proc A := fun t => (t, Threw e).

(** [process.exit(code)]: nothing runs after it, a [catch] included. *)
Definition process_exit {A} (code : Z) : Proc A := fun t => (t, Exited code).

Definition proc_lift {A} (r : result A) : Proc A :=
  fun t => (t, match r with Ok a => Returned a | Err e => Threw e end).

Definition proc_try {A} (m : Proc A) (h : exn -> Proc A) : Proc A :=
  fun t => match m t with
           | (t', Threw e) => h e t'
           | run => run
           end.

(** The Admin GraphQL client handed to the helpers. *)
Definition GraphQLClient : Type := list call -> string -> value -> GraphqlOutcome.

(** The environment, the Hookdeck API behind the SDK, the network and the
    file system. *)
Record Ops := {
  ops_env : gmap string string;
  ops_upsert : list call -> string -> value -> result value;
  ops_fetch : list call -> HttpRequest -> FetchOutcome;
  ops_read : list call -> string -> result string;
}.

(** [await graphql(document, options)] followed by [await
    response.json()]. *)
Definition graphql_request (graphql : GraphQLClient) (document : string)
    (options : value) : Proc value :=
  fun t => (t ++ [GraphqlRequest document options],
            match graphql t document options with
            | GraphqlRejects e => Threw e
            | GraphqlResolves (Ok data) => Returned data
            | GraphqlResolves (Err e) => Threw e
            end).

(** [s.replace(c, r)] for a one-character search string: the first
    occurrence is replaced, the others stay. *)
Fixpoint replace_char (c : ascii) (r : string) (s : string) : string :=
  match s with
  | EmptyString => EmptyString
  | String x s' =>
      if Ascii.eqb x c then r +:+ s' else String x (replace_char c r s')
  end.

(** [s.split(c)] for a one-character separator. *)
Fixpoint split_char (c : ascii) (s : string) : list string :=
  match s with
  | EmptyString => [EmptyString]
  | String x s' =>
      if Ascii.eqb x c then EmptyString :: split_char c s'
      else match split_char c s' with
           | p :: ps => String x p :: ps
           | [] => [String x EmptyString]
           end
  end.

(** [process.env.NAME] *)
Definition env_value (ops : Ops) (name : string) : value :=
  optional_string (ops_env ops !! name).

(** *** app/helpers/webhooks.ts *)

Section Webhooks.

(** The module's client, which exists once the module has loaded. *)
Context (ops : Ops) (hookdeck : HookdeckClient).

(** [await hookdeck.connection.upsert(request)] *)
Definition connection_upsert (request : value) : Proc value :=
  fun t => (t ++ [ConnectionUpsert (token hookdeck) request],
            match ops_upsert ops t (token hookdeck) request with
            | Ok connection => Returned connection
            | Err e => Threw e
            end).

Definition updateHookdeckConnection (shopDomain : string) : Proc value :=
  let shopId := replace_char "." "-" shopDomain in
  connection ← connection_upsert (VObject (list_to_map [
    ("name", VString (shopId +:+ "_order-created"));
    ("source", VObject {[ "name" := VString (shopId +:+ "_order-created") ]});
    ("destination", VObject (list_to_map [
       ("name", VString (shopId +:+ "_ably"));
       ("url", VString ("https://rest.ably.io/channels/" +:+ shopId +:+ "/messages"));
       ("authMethod", VObject (list_to_map [
          ("type", VString "BEARER_TOKEN");
          ("config", VObject {[ "token" := env_value ops "ABLY_API_KEY" ]})]))]))]));
  source ← proc_lift (get "source" connection);
  proc_lift (get "url" source).

Definition getWebhookSubscriptions (graphql : GraphQLClient) : Proc value :=
  graphql_request graphql WebhookSubscriptionList_document VUndefined.

Definition createOrdersWebhook (graphql : GraphQLClient) (shopDomain : string)
    : Proc value :=
  let shopId := replace_char "." "-" shopDomain in
  webhookUrl ← updateHookdeckConnection shopId;
  graphql_request graphql webhookSubscriptionCreate_document
    (VObject {[ "variables" := VObject (list_to_map [
       ("topic", VString "ORDERS_CREATE");
       ("webhookSubscription", VObject (list_to_map [
          ("callbackUrl", webhookUrl); ("format", VString "JSON")]))]) ]}).

Definition deleteWebhook (graphql : GraphQLClient) (webhookId : string)
    : Proc value :=
  graphql_request graphql webhookSubscriptionDelete_document
    (VObject {[ "variables" := VObject {[ "id" := VString webhookId ]} ]}).

End Webhooks.

(** *** scripts/setup-hookdeck.ts *)

(** The script's [CONFIG]. *)
Module CONFIG.
Definition connectionName : string := "shopify-orders-create".
Definition sourceName : string := "shopify-webhooks".
Definition destinationPath : string := "/webhooks/orders/create".
Definition shopifyConfig : string := "shopify.app.toml".
Definition hookdeckApiUrl : string := "https://api.hookdeck.com/2025-07-01".
End CONFIG.

(** What [validatePrerequisites] returns. *)
Record Prerequisites := {
  apiKey : string;
  shopifySecret : string;
  ablyApiKey : string;
}.

(** [answer.toLowerCase()], on the ASCII letters: the answer is compared
    with [y] and [yes] only, and no character outside ASCII has one of
    these letters as its lower case. *)
Definition lower_case_char (c : Ascii.ascii) : Ascii.ascii :=
  let n := Ascii.nat_of_ascii c in
  if (65 <=? n)%nat && (n <=? 90)%nat then Ascii.ascii_of_nat (n + 32) else c.

Fixpoint toLowerCase (s : string) : string :=
  match s with
  | EmptyString => EmptyString
  | String c s' => String (lower_case_char c) (toLowerCase s')
  end.

Section Setup.

(** [answer] is what the user types when asked. *)
Context (ops : Ops) (answer : string).

(** [await fetch(url, init)] *)
Definition proc_fetch (req : HttpRequest) : Proc HttpResponse :=
  fun t => (t ++ [HttpCall req],
            match ops_fetch ops t req with
            | FetchRejects e => Threw e
            | FetchResolves r => Returned r
            end).

(** [readFileSync(path, "utf-8")] *)
Definition readFileSync (path : string) : Proc string :=
  fun t => (t ++ [FileRead path],
            match ops_read ops t path with
            | Ok content => Returned content
            | Err e => Threw e
            end).

Definition getShopifyApiSecret : Proc string :=
  match ops_env ops !! "SHOPIFY_API_SECRET" with
  | None => process_exit 1
  | Some secret => if String.eqb secret "" then process_exit 1 else proc_ret secret
  end.

Definition validatePrerequisites : Proc Prerequisites :=
  match ops_env ops !! "HOOKDECK_API_KEY" with
  | None => process_exit 1
  | Some apiKey =>
      if String.eqb apiKey "" then process_exit 1 else
      shopifySecret ← getShopifyApiSecret;
      match ops_env ops !! "ABLY_API_KEY" with
      | None => process_exit 1
      | Some ablyApiKey =>
          if String.eqb ablyApiKey "" then process_exit 1 else
          _ ← proc_try (_ ← readFileSync CONFIG.shopifyConfig; proc_ret tt)
                (fun _ => process_exit 1);
          proc_ret {| apiKey := apiKey; shopifySecret := shopifySecret;
                      ablyApiKey := ablyApiKey |}
      end
  end.

(** The request both connection functions send: [PUT /connections] with
    the bearer key and a JSON body. *)
Definition put_connections (apiKey : string) (connection : value) : HttpRequest :=
  {| url := CONFIG.hookdeckApiUrl +:+ "/connections";
     method := "PUT";
     headers := {[ "Authorization" := "Bearer " +:+ apiKey;
                   "Content-Type" := "application/json" ]};
     body := stringify connection |}.

(** The common tail of both connection functions: check the status,
    decode the connection, take its source URL. *)
Definition source_url_of (response : HttpResponse) : Proc value :=
  if negb (ok response)
  then proc_throw (Error ("API request failed with status "
                          +:+ string_of_Z (status response) +:+ ": "
                          +:+ text response))
  else
    connection ← match json_body response with
                 | Some v => proc_ret v
                 | None => proc_throw SyntaxError
                 end;
    source ← proc_lift (get "source" connection);
    sourceUrl ← proc_lift (get "url" source);
    if negb (truthy sourceUrl) then process_exit 1 else proc_ret sourceUrl.

Definition createHookdeckConnection (apiKey shopifySecret : string) : Proc value :=
  proc_try
    (response ← proc_fetch (put_connections apiKey (VObject (list_to_map [
       ("name", VString CONFIG.connectionName);
       ("source", VObject (list_to_map [
          ("name", VString CONFIG.sourceName);
          ("type", VString "SHOPIFY");
          ("config", VObject {[ "auth" :=
             VObject {[ "webhook_secret_key" := VString shopifySecret ]} ]})]));
       ("destination", VObject (list_to_map [
          ("name", VString (CONFIG.connectionName +:+ "-cli"));
          ("type", VString "CLI");
          ("config", VObject {[ "path" := VString CONFIG.destinationPath ]})]))])));
     source_url_of response)
    (fun error => process_exit 1).

(** [!s] for a destructured array element, which is a string or
    [undefined]. *)
Definition missing (s : option string) : bool :=
  negb (truthy (optional_string s)).

Definition createAblyConnection (apiKey ablyApiKey : string) : Proc value :=
  proc_try
    (let parts := split_char ":"%char ablyApiKey in
     let username := parts !! 0%nat in
     let password := parts !! 1%nat in
     if missing username || missing password
     then proc_throw (Error "ABLY_API_KEY must be in format: appId.keyId:keySecret")
     else
       response ← proc_fetch (put_connections apiKey (VObject (list_to_map [
         ("name", VString "ably-notifications");
         ("source", VObject (list_to_map [
            ("name", VString "shopify-notifications-publish");
            ("type", VString "PUBLISH_API")]));
         ("destination", VObject (list_to_map [
            ("name", VString "ably-rest-api");
            ("type", VString "HTTP");
            ("config", VObject (list_to_map [
               ("url", VString "https://rest.ably.io/channels/shopify-notifications/messages");
               ("http_method", VString "POST");
               ("auth_type", VString "BASIC_AUTH");
               ("auth", VObject (list_to_map [
                  ("username", optional_string username);
                  ("password", optional_string password)]))]))]))])));
       source_url_of response)
    (fun error => process_exit 1).

(** [confirm(question)]: the promise resolves with whether the answer,
    in lower case, is [y] or [yes]. *)
Definition confirm (question : string) : bool :=
  String.eqb (toLowerCase answer) "y" || String.eqb (toLowerCase answer) "yes".

End Setup.

(** ** Vocabulary of the specification *)

(** The allow-lists: the properties of an order and of a line item that
    the notification is built from. *)
Definition order_fields : list string :=
  ["created_at"; "currency"; "total_price"; "subtotal_price"; "total_tax";
   "total_discounts"; "shop_domain"; "test"; "total_weight"; "tags";
   "source_name"].

Definition item_fields : list string :=
  ["name"; "title"; "quantity"; "price"; "sku"; "product_id"; "variant_id";
   "grams"; "vendor"; "requires_shipping"; "taxable"; "gift_card"].

(** Two values agree on a list of properties when reading any of them
    gives the same outcome. *)
Definition agree_on (fields : list string) (a b : value) : Prop :=
  Forall (fun k => get k a = get k b) fields.

(** Two [line_items] properties agree when they are the same value or
    arrays of the same length whose entries agree on the item
    allow-list. *)
Inductive agree_line_items : value -> value -> Prop :=
| agree_line_items_same v : agree_line_items v v
| agree_line_items_array l1 l2 :
    Forall2 (agree_on item_fields) l1 l2 ->
    agree_line_items (VArray l1) (VArray l2).

Definition agree_order (o1 o2 : value) : Prop :=
  agree_on order_fields o1 o2 /\
  forall l1 l2, get "line_items" o1 = Ok l1 -> get "line_items" o2 = Ok l2 ->
                agree_line_items l1 l2.

(** The [line_items] sequence of an OrderRecord: the order is an object
    and the property is an array, or absent ([null] included) and then
    taken as empty. *)
Definition order_line_items (order : value) : option (list value) :=
  match order with
  | VObject o =>
      match o !! "line_items" with
      | None | Some VUndefined | Some VNull => Some []
      | Some (VArray l) => Some l
      | Some _ => None
      end
  | _ => None
  end.

(** The quantity of a LineItem: the item is an object whose [quantity] is
    an integer and whose [product_id] is a number, [null] or absent. *)
Definition line_item_quantity (item : value) : option Z :=
  match item with
  | VObject o =>
      match o !! "product_id", o !! "quantity" with
      | (None | Some VNull | Some (VNumber _)), Some (VNumber (Int q)) => Some q
      | _, _ => None
      end
  | _ => None
  end.

(** The quantities of the line items of an OrderRecord, in order; defined
    exactly on the values that have the shape of an OrderRecord. *)
Definition order_quantities (order : value) : option (list Z) :=
  items ← order_line_items order;
  mapM line_item_quantity items.

Definition sum_Z (l : list Z) : Z := foldr Z.add 0 l.

(** The input line item a notification line item is copied from, and the
    image it was given. *)
Definition derived_from (item : value) (out : OrderNotificationLineItem) : Prop :=
  get "name" item = Ok (name out) /\
  get "title" item = Ok (title out) /\
  get "quantity" item = Ok (quantity out) /\
  get "price" item = Ok (price out) /\
  get "sku" item = Ok (sku out) /\
  get "product_id" item = Ok (product_id out) /\
  get "variant_id" item = Ok (variant_id out) /\
  get "grams" item = Ok (grams out) /\
  get "vendor" item = Ok (vendor out) /\
  get "requires_shipping" item = Ok (requires_shipping out) /\
  get "taxable" item = Ok (taxable out) /\
  get "gift_card" item = Ok (gift_card out).

(** The image a lookup's answer leads to. *)
Definition image_of_outcome (answer : GraphqlOutcome) : value :=
  match answer with
  | GraphqlResolves (Ok data) =>
      opt_get "url" (opt_get "featuredImage" (opt_get "product" (opt_get "data" data)))
  | _ => VUndefined
  end.

(** The HTTP requests of a history. *)
Definition fetches (t : list event) : list HttpRequest :=
  omap (fun ev => match ev with HttpFetch req => Some req | _ => None end) t.

(** The product queries of a history. *)
Definition queries (t : list event) : list string :=
  omap (fun ev => match ev with GraphqlQuery id => Some id | _ => None end) t.


(** The configured publish credential: set and not empty. *)
Definition api_key (world : World) : option string :=
  match env world !! "HOOKDECK_API_KEY" with
  | Some key => if String.eqb key "" then None else Some key
  | None => None
  end.

(** The request [publishToHookdeck] sends without custom headers. *)
Definition publish_request (key sourceName : string) (payload : json) : HttpRequest :=
  {| url := "https://hkdk.events/v1/publish";
     method := "POST";
     headers := {[ "Content-Type" := "application/json";
                   "Authorization" := "Bearer " +:+ key;
                   "X-Hookdeck-Source-Name" := sourceName ]};
     body := Some (JObject {[ "data" := payload ]}) |}.

(** The indices of the promises in the order in which [settle] lets them
    settle, as long as none rejects. *)
Fixpoint settlement_order {A} (fuel : nat) (sched : list nat)
    (pending : list (nat * Promise A)) : list nat :=
  match fuel with
  | O => []
  | S fuel' =>
      match pending !! next_to_settle sched pending with
      | None => []
      | Some (i, _) =>
          i :: settlement_order fuel' (tl sched)
                 (delete (next_to_settle sched pending) pending)
      end
  end.

(** What is known between two settlements when every promise fulfils with
    the value of its index in [vs]: a pending entry carries its own
    promise, and every slot is still pending or already holds its value. *)
Definition settling {A} (vs : list A) (pending : list (nat * Promise A))
    (values : list (option A)) : Prop :=
  length values = length vs /\
  (forall i p, (i, p) ∈ pending -> exists v, vs !! i = Some v /\ p = Ok v) /\
  (forall i v, vs !! i = Some v ->
               (exists p, (i, p) ∈ pending) \/ values !! i = Some (Some v)).

(** Computations that send no HTTP request. *)
Definition quiet {A} (m : M A) : Prop := forall t, fetches (m t).1 = fetches t.

(** The image of a notification line item produced between the histories
    [t] and [t']: absent, or what a call of [fetchProductImage] for the
    item's product made in that stretch returned. *)
Definition image_from (admin : option Admin) (t t' : list event)
    (out : OrderNotificationLineItem) : Prop :=
  image out = VUndefined \/
  exists a h h', admin = Some a /\ t `prefix_of` h /\ h' `prefix_of` t' /\
                 fetchProductImage a (product_id out) h = (h', Ok (image out)).

(** The request [publishToHookdeck] sends. *)
Definition request_of (key sourceName : string) (data : value)
    (custom : option (gmap string string)) : HttpRequest :=
  {| url := "https://hkdk.events/v1/publish";
     method := "POST";
     headers := default ∅ custom ∪
                {[ "Content-Type" := "application/json";
                   "Authorization" := "Bearer " +:+ key;
                   "X-Hookdeck-Source-Name" := sourceName ]};
     body := stringify (VObject {[ "data" := data ]}) |}.

(** What a call returns once the request has been answered. *)
Definition publish_result (answer : FetchOutcome) : result value :=
  match answer with
  | FetchRejects e => Err e
  | FetchResolves r =>
      if ok r
      then match json_body r with
           | Some v => Ok v
           | None => Err SyntaxError
           end
      else Err (Error ("Hookdeck publish failed: "
                       +:+ string_of_Z (status r) +:+ " "
                       +:+ statusText r +:+ " - " +:+ text r))
  end.

(** Why a call of [publishToHookdeck] made in history [t] throws [e]. *)
Inductive publish_failure (world : World) (sourceName : string) (data : value)
    (custom : option (gmap string string)) (t : list event) : exn -> Prop :=
| no_credential :
    api_key world = None ->
    publish_failure world sourceName data custom t
      (Error "HOOKDECK_API_KEY environment variable is not set")
| network_failure key e :
    api_key world = Some key ->
    fetch world (t ++ [Invoke "publishToHookdeck"])
      (request_of key sourceName data custom) = FetchRejects e ->
    publish_failure world sourceName data custom t e
| bad_status key r :
    api_key world = Some key ->
    fetch world (t ++ [Invoke "publishToHookdeck"])
      (request_of key sourceName data custom) = FetchResolves r ->
    ok r = false ->
    publish_failure world sourceName data custom t
      (Error ("Hookdeck publish failed: " +:+ string_of_Z (status r) +:+ " "
              +:+ statusText r +:+ " - " +:+ text r))
| undecodable_body key r :
    api_key world = Some key ->
    fetch world (t ++ [Invoke "publishToHookdeck"])
      (request_of key sourceName data custom) = FetchResolves r ->
    ok r = true ->
    json_body r = None ->
    publish_failure world sourceName data custom t SyntaxError.

(** The [shop_domain] of an OrderRecord: a string, or absent, which reads
    as the empty string. *)
Definition shop_domain_of (order : value) : option string :=
  match opt_get "shop_domain" order with
  | VString s => Some s
  | VUndefined => Some ""
  | _ => None
  end.

(** The [test] flag of an OrderRecord: a boolean, or absent, which reads
    as [false]. *)
Definition test_flag_of (order : value) : option bool :=
  match opt_get "test" order with
  | VBool b => Some b
  | VUndefined => Some false
  | _ => None
  end.

(** *** Further vocabulary *)

(** Computations that leave the history as it is. *)
Definition still {A} (m : M A) : Prop := forall t, (m t).1 = t.


(** Computations whose only error is [TypeError]. *)
Definition type_errors {A} (m : M A) : Prop :=
  forall t e, (m t).2 = Err e -> e = TypeError.

(** The [quantity] of a line item as it stands in the payload, whatever
    its type: the item is an object whose [product_id] is a number, [null]
    or absent. *)
Definition line_item_raw_quantity (item : value) : option value :=
  match item with
  | VObject o =>
      match o !! "product_id" with
      | None | Some VNull | Some (VNumber _) =>
          Some (default VUndefined (o !! "quantity"))
      | _ => None
      end
  | _ => None
  end.

Definition concat_strings (l : list string) : string := foldr String.append "" l.

(** The item count as the fold of [+] over the quantities. *)
Definition sum_quantities (qs : list value) : result value :=
  reduce js_add (VNumber (Int 0)) qs.

Definition number_or_missing (q : value) : Prop :=
  q = VUndefined \/ exists n, q = VNumber n.

(** The member names of the notification object and of its line items. *)
Definition notification_members : list string :=
  ["created_at"; "currency"; "total_price"; "subtotal_price"; "total_tax";
   "total_discounts"; "item_count"; "line_items"; "shop"; "test";
   "total_weight"; "tags"; "source_name"].

Definition line_item_members : list string :=
  ["name"; "title"; "quantity"; "price"; "sku"; "product_id"; "variant_id";
   "grams"; "vendor"; "requires_shipping"; "taxable"; "gift_card"; "image"].

(** A JSON object all of whose members are named in [names]. *)
Definition members_among (names : list string) (j : json) : Prop :=
  exists o, j = JObject o /\ forall k, is_Some (o !! k) -> k ∈ names.

(** A request body of the shape [{"data": {…, "line_items": [{…}, …]}}]
    with allow-listed member names only. *)
Definition allow_listed_body (b : option json) : Prop :=
  exists o items,
    b = Some (JObject {[ "data" := JObject o ]}) /\
    (forall k, is_Some (o !! k) -> k ∈ notification_members) /\
    o !! "line_items" = Some (JArray items) /\
    Forall (members_among line_item_members) items.

(** The order-level properties that are copied as they are. *)
Definition passthrough_fields : list string :=
  ["created_at"; "currency"; "total_price"; "subtotal_price"; "total_tax";
   "total_discounts"; "total_weight"; "tags"; "source_name"].

(** Whether a character occurs in a string. *)
Fixpoint occurs (c : Ascii.ascii) (s : string) : bool :=
  match s with
  | EmptyString => false
  | String x s' => Ascii.eqb x c || occurs c s'
  end.

(** A variable of the environment that is set to a non-empty string. *)
Definition setting (ops : Ops) (name : string) : option string :=
  match ops_env ops !! name with
  | Some s => if String.eqb s "" then None else Some s
  | None => None
  end.

(** ** Example data *)

Definition mug : value :=
  VObject (list_to_map [
    ("name", VString "Mug"); ("quantity", VNumber (Int 2));
    ("price", VString "14.99"); ("product_id", VNumber (Int 555))]).

Definition mug_order : value :=
  VObject (list_to_map [
    ("currency", VString "USD"); ("total_price", VString "29.99");
    ("line_items", VArray [mug]);
    ("customer", VObject {[ "email" := VString "a@b.com" ]})]).

Definition tea : value :=
  VObject (list_to_map [
    ("name", VString "Tea"); ("quantity", VNumber (Int 1));
    ("price", VString "4.50"); ("product_id", VNumber (Int 556))]).

(** A custom line item: no product behind it. *)
Definition gift_wrap : value :=
  VObject (list_to_map [
    ("name", VString "Gift wrap"); ("quantity", VNumber (Int 3));
    ("price", VString "0.00"); ("product_id", VNull)]).

Definition basket : value :=
  VObject (list_to_map [
    ("currency", VString "USD"); ("total_price", VString "34.49");
    ("line_items", VArray [mug; tea; gift_wrap]);
    ("test", VBool true);
    ("customer", VObject {[ "email" := VString "a@b.com" ]})]).

(** The same purchase by another customer, from another address, with
    other payment details. *)
Definition mug_order' : value :=
  VObject (list_to_map [
    ("currency", VString "USD"); ("total_price", VString "29.99");
    ("line_items",
     VArray [VObject (list_to_map [
       ("name", VString "Mug"); ("quantity", VNumber (Int 2));
       ("price", VString "14.99"); ("product_id", VNumber (Int 555));
       ("properties", VArray [VString "engraving: for Ada"])])]);
    ("customer", VObject (list_to_map [
       ("email", VString "c@d.org"); ("first_name", VString "Ada");
       ("phone", VString "+44 20 7946 0000")]));
    ("billing_address", VObject {[ "address1" := VString "12 St James's Square" ]});
    ("payment_gateway_names", VArray [VString "visa"]);
    ("browser_ip", VString "203.0.113.7")]).

Definition featured (u : string) : value :=
  VObject {[ "data" := VObject {[ "product" :=
    VObject {[ "featuredImage" := VObject {[ "url" := VString u ]} ]} ]} ]}.

(** A catalogue that knows product 555 and fails on everything else. *)
Definition catalogue : Admin :=
  {| graphql := fun _ id =>
       if String.eqb id "gid://shopify/Product/555"
       then GraphqlResolves (Ok (featured "https://cdn.example/mug.png"))
       else GraphqlRejects (Error "not found") |}.

Definition accepted : HttpResponse :=
  {| status := 200; statusText := "OK"; text := "{}";
     json_body := Some (VObject {[ "id" := VString "evt_1" ]}) |}.

Definition configured : World :=
  {| env := {[ "HOOKDECK_API_KEY" := "hk_test" ]};
     fetch := fun _ _ => FetchResolves accepted |}.

(** The endpoint is up, the credential is not set. *)
Definition unconfigured : World :=
  {| env := ∅; fetch := fun _ _ => FetchResolves accepted |}.

(** The endpoint answers 200 with a body that is not JSON. *)
Definition garbled : World :=
  {| env := {[ "HOOKDECK_API_KEY" := "hk_test" ]};
     fetch := fun _ _ =>
       FetchResolves {| status := 200; statusText := "OK";
                        text := "<html>"; json_body := None |} |}.

Definition toy_sign (secret body : string) : string := secret +:+ ":" +:+ body.

Definition order_created : WebhookRequest :=
  {| request_topic := "orders/create"; request_shop := "demo.myshopify.com";
     request_signature := "s3cret:{}"; request_body := "{}" |}.

Definition forged : WebhookRequest :=
  {| request_topic := "orders/create"; request_shop := "demo.myshopify.com";
     request_signature := "guess"; request_body := "{}" |}.

(** An order placed in shop a.myshopify.com. *)
Definition shop_order : value :=
  VObject (list_to_map [
    ("currency", VString "USD"); ("shop_domain", VString "a.myshopify.com")]).

(** The endpoint accepts whatever it is sent and answers with a JSON
    [null]. *)
Definition laconic : World :=
  {| env := {[ "HOOKDECK_API_KEY" := "hk_test" ]};
     fetch := fun _ _ =>
       FetchResolves {| status := 200; statusText := "OK"; text := "null";
                        json_body := Some VNull |} |}.

(** An order whose [line_items] is a text. *)
Definition mislabelled : value :=
  VObject (list_to_map [
    ("currency", VString "USD"); ("line_items", VString "1 x Mug")]).

(** A basket one of whose entries was lost. *)
Definition torn_basket : value :=
  VObject (list_to_map [
    ("currency", VString "USD"); ("line_items", VArray [mug; VNull; tea])]).

(** A purchase whose quantities arrive as text. *)
Definition quoted_basket : value :=
  VObject (list_to_map [
    ("currency", VString "USD");
    ("line_items", VArray [
       VObject (list_to_map [("name", VString "Mug"); ("quantity", VString "2")]);
       VObject (list_to_map [("name", VString "Tea"); ("quantity", VString "1")])])]).

(** A purchase one of whose entries states no quantity. *)
Definition unmetered : value :=
  VObject (list_to_map [
    ("currency", VString "USD");
    ("line_items", VArray [mug; VObject {[ "name" := VString "Sample" ]}])]).

(** A Hookdeck project that answers every upsert with the same source, a
    shop whose GraphQL endpoint answers [null], and the machine the setup
    script runs on. *)
Definition demo_client : HookdeckClient := {| token := "hk_test" |}.

Definition demo_graphql : GraphQLClient := fun _ _ _ => GraphqlResolves (Ok VNull).

Definition demo_ops : Ops :=
  {| ops_env := {[ "HOOKDECK_API_KEY" := "hk_test" ]};
     ops_upsert := fun _ _ _ =>
       Ok (VObject {[ "source" :=
             VObject {[ "url" := VString "https://hkdk.events/src_1" ]} ]});
     ops_fetch := fun _ _ => FetchResolves accepted;
     ops_read := fun _ _ => Ok "" |}.

(** * Proofs *)

(** ** The model at work *)

(** The scenario of the specification: one mug, bought twice. *)
Example mug_notification :
  exists t' n,
    transformOrderToNotification [] mug_order None None [] = (t', Ok n) /\
    item_count n = VNumber (Int 2) /\
    currency n = VString "USD" /\
    total_price n = VString "29.99" /\
    (name <$> line_items n) = [VString "Mug"] /\
    (quantity <$> line_items n) = [VNumber (Int 2)].
Proof. eexists _, _. split; [reflexivity|]. by split_and!. Qed.

(** Three line items, whose lookups complete last to first: the mug has
    an image, the tea is unknown to the catalogue, the gift wrap has no
    product and is not looked up. *)
Example basket_images :
  (fmap (M := list) image <$>
     (line_items <$>
        (transformOrderToNotification [2%nat; 1%nat] basket None
           (Some catalogue) []).2))
  = Ok [VString "https://cdn.example/mug.png"; VUndefined; VUndefined].
Proof. reflexivity. Qed.

Example basket_queries :
  queries (transformOrderToNotification [2%nat; 1%nat] basket None
             (Some catalogue) []).1
  = ["gid://shopify/Product/555"; "gid://shopify/Product/556"].
Proof. reflexivity. Qed.

(** [Promise.all] fills the slots by index, in whatever order the promises
    settle, and rejects with the first rejection to arrive. *)
Example Promise_all_last_first :
  Promise_all [2%nat; 1%nat] [Ok "a"; Ok "b"; Ok "c"] = Ok ["a"; "b"; "c"].
Proof. reflexivity. Qed.

Example settlement_last_first :
  settlement_order 3 [2%nat; 1%nat] (imap pair [Ok "a"; Ok "b"; Ok "c"])
  = [2%nat; 1%nat; 0%nat].
Proof. reflexivity. Qed.

Example Promise_all_first_rejection :
  Promise_all [2%nat] [Ok "a"; Err TypeError; Err SyntaxError] = Err SyntaxError /\
  Promise_all [1%nat] [Ok "a"; Err TypeError; Err SyntaxError] = Err TypeError.
Proof. by split. Qed.

(** A quantity that is a string is concatenated, not added. *)
Example quantity_as_string :
  js_add (VNumber (Int 0)) (VString "2") = Ok (VString "02").
Proof. reflexivity. Qed.

(** A product identifier without a string form makes [fetchProductImage]
    throw: the catch block prints the identifier again. *)
Example fetchProductImage_unprintable :
  fetchProductImage catalogue (VObject {[ "toString" := VNull ]}) []
  = ([Invoke "fetchProductImage"], Err TypeError).
Proof. reflexivity. Qed.

(** ** Promise.all joins by position *)

Section PromiseAll.
Context {A : Type}.
Implicit Types (vs : list A) (pending : list (nat * Promise A)) (values : list (option A)).

Lemma settling_done vs values : settling vs [] values -> values = Some <$> vs.
Proof.
  intros (Hlen & _ & Hslots). apply list_eq. intros i.
  rewrite list_lookup_fmap. destruct (vs !! i) as [v|] eqn:Hv; simpl.
  - destruct (Hslots i v Hv) as [[p Hp]|]; [|done]. by apply elem_of_nil in Hp.
  - apply lookup_ge_None. rewrite Hlen. by apply lookup_ge_None.
Qed.

Lemma settling_step vs pending values k i v :
  settling vs pending values ->
  pending !! k = Some (i, Ok v) ->
  settling vs (delete k pending) (<[i := Some v]> values).
Proof.
  intros (Hlen & Hpend & Hslots) Hk. split; [by rewrite length_insert|]. split.
  - intros j p Hj. apply Hpend.
    apply list_elem_of_lookup in Hj as [n Hn]. apply list_elem_of_lookup.
    destruct (decide (n < k)%nat).
    + exists n. by rewrite list_lookup_delete_lt in Hn.
    + exists (S n). rewrite list_lookup_delete_ge in Hn; [done | lia].
  - intros j w Hj. destruct (decide (j = i)) as [->|Hne].
    + right. destruct (Hpend i (Ok v)) as (v' & Hv' & [= <-]).
      { apply list_elem_of_lookup. eauto. }
      assert (w = v) as -> by congruence.
      apply list_lookup_insert_eq. rewrite Hlen. by eapply lookup_lt_Some.
    + destruct (Hslots j w Hj) as [[p Hp]|Hv].
      * left. exists p. apply list_elem_of_lookup in Hp as [n Hn].
        apply list_elem_of_lookup.
        assert (n ≠ k). { intros Heq. subst n. rewrite Hk in Hn. by simplify_eq. }
        destruct (decide (n < k)%nat).
        -- exists n. by rewrite list_lookup_delete_lt.
        -- exists (n - 1)%nat. rewrite list_lookup_delete_ge; [|lia].
           by replace (S (n - 1)) with n by lia.
      * right. by rewrite list_lookup_insert_ne.
Qed.

Lemma settle_fulfilled vs fuel : forall sched pending values,
  (length pending <= fuel)%nat ->
  settling vs pending values ->
  settle fuel sched pending values = Ok (Some <$> vs).
Proof.
  induction fuel as [|fuel IH]; intros sched pending values Hfuel Hinv.
  - destruct pending; [|simpl in Hfuel; lia].
    simpl. f_equal. by apply settling_done.
  - simpl. destruct pending as [|entry pending'] eqn:Hpending.
    + simpl. f_equal. by apply settling_done.
    + rewrite <- Hpending in *.
      assert (0 < length pending)%nat as Hpos by (rewrite Hpending; simpl; lia).
      set (k := next_to_settle sched pending).
      assert (k < length pending)%nat as Hk by (apply Nat.mod_upper_bound; lia).
      destruct (lookup_lt_is_Some_2 pending k Hk) as [[i p] Hlook].
      rewrite Hlook.
      destruct Hinv as (Hlen & Hpend & Hslots).
      destruct (Hpend i p) as (v & Hv & ->).
      { apply list_elem_of_lookup. eauto. }
      apply IH.
      * rewrite length_delete; [lia | eauto].
      * by apply (settling_step vs pending values k i v).
Qed.

Lemma settling_start vs :
  settling vs (imap pair (Ok <$> vs)) (replicate (length (Ok <$> vs)) None).
Proof.
  split; [by rewrite length_replicate, length_fmap|]. split.
  - intros i p Hi. apply list_elem_of_lookup in Hi as [n Hn].
    rewrite list_lookup_imap, list_lookup_fmap in Hn.
    destruct (vs !! n) as [v|] eqn:Hv; simplify_eq/=. eauto.
  - intros i v Hv. left. exists (Ok v). apply list_elem_of_lookup. exists i.
    by rewrite list_lookup_imap, list_lookup_fmap, Hv.
Qed.

Lemma omap_id_Some vs : omap id (Some <$> vs) = vs.
Proof. induction vs as [|v vs IH]; [done|]. cbn. by f_equal. Qed.

(** When every promise fulfils, [Promise.all] fulfils with the values in
    the order of the promises, whatever the order of settlement. *)
Lemma Promise_all_fulfilled sched vs :
  Promise_all sched (Ok <$> vs) = Ok vs.
Proof.
  unfold Promise_all.
  rewrite (settle_fulfilled vs); [| by rewrite length_imap | apply settling_start].
  cbv beta iota. by rewrite omap_id_Some.
Qed.

(** A rejection of [Promise.all] is the rejection of one of its promises,
    met on the way of the settlement order. *)
Lemma settle_rejected fuel : forall sched pending values e,
  settle fuel sched pending values = Err e ->
  exists i, i ∈ settlement_order fuel sched pending /\ (i, Err e) ∈ pending.
Proof.
  induction fuel as [|fuel IH]; intros sched pending values e; simpl; [done|].
  destruct (pending !! next_to_settle sched pending) as [[i [v|e']]|] eqn:Hk;
    [| |done].
  - intros H. apply IH in H as (j & Hj & Hin). exists j. split; [by right|].
    by eapply list_elem_of_delete_inv.
  - intros [= ->]. exists i. split; [by left|].
    apply list_elem_of_lookup. eauto.
Qed.

Lemma fmap_fst_delete {B} (l : list (nat * B)) k :
  (delete k l).*1 = delete k (l.*1).
Proof.
  revert k. induction l as [|x l IH]; intros [|k]; simpl; try done.
  by rewrite IH.
Qed.

Lemma every_order_is_scheduled_from (order : list nat) :
  forall pending,
    order ≡ₚ pending.*1 ->
    exists sched, settlement_order (length pending) sched pending = order.
Proof.
  induction order as [|i order IH]; intros pending Hperm.
  - apply Permutation_nil_l in Hperm. symmetry in Hperm.
    apply fmap_nil_inv in Hperm as ->. by exists [].
  - assert (i ∈ pending.*1) as Hi by (rewrite <- Hperm; left).
    apply list_elem_of_lookup in Hi as [k Hk].
    rewrite list_lookup_fmap in Hk.
    destruct (pending !! k) as [[i' p]|] eqn:Hp; simplify_eq/=.
    assert (k < length pending)%nat as Hlt by (by eapply lookup_lt_Some).
    destruct (IH (delete k pending)) as [sched Hsched].
    { rewrite fmap_fst_delete. apply (Permutation_cons_inv (a := i)).
      rewrite Hperm. rewrite delete_take_drop.
      rewrite <- (take_drop_middle (pending.*1) k i) at 1;
        [|by rewrite list_lookup_fmap, Hp].
      by rewrite Permutation_middle. }
    exists (k :: sched).
    assert (length pending = S (length (delete k pending))) as Hlen
      by (rewrite length_delete by eauto; lia).
    rewrite Hlen at 1. simpl. unfold next_to_settle. simpl.
    rewrite Nat.mod_small by lia. rewrite Hp. by f_equal.
Qed.

(** Every order in which the promises of a [Promise.all] can settle is
    the order of some schedule. *)
Lemma every_order_is_scheduled (promises : list (Promise A)) order :
  order ≡ₚ seq 0 (length promises) ->
  exists sched,
    settlement_order (length promises) sched (imap pair promises) = order.
Proof.
  intros Hperm.
  assert ((imap pair promises).*1 = seq 0 (length promises)) as Hidx.
  { apply list_eq. intros i. rewrite list_lookup_fmap, list_lookup_imap.
    destruct (promises !! i) as [p|] eqn:Hp; simpl; symmetry.
    - apply lookup_seq. split; [done|]. by eapply lookup_lt_Some.
    - apply lookup_ge_None. rewrite length_seq. by apply lookup_ge_None. }
  destruct (every_order_is_scheduled_from order (imap pair promises))
    as [sched Hsched]; [by rewrite Hidx|].
  exists sched. by rewrite length_imap in Hsched.
Qed.

End PromiseAll.

(** ** Elementary facts *)

Lemma get_object k o : get k (VObject o) = Ok (default VUndefined (o !! k)).
Proof. done. Qed.

(** A property read either throws [TypeError], for every name, or
    succeeds with what optional chaining gives, for every name. *)
Lemma get_cases v :
  (forall k, get k v = Err TypeError) \/ (forall k, get k v = Ok (opt_get k v)).
Proof. destruct v; (by left) || (by right). Qed.

Lemma bind_ext {A B} (m1 m2 : M A) (f1 f2 : A -> M B) t :
  m1 t = m2 t -> (forall a t', f1 a t' = f2 a t') ->
  (m1 ≫= f1) t = (m2 ≫= f2) t.
Proof.
  intros Hm Hf. unfold mbind, M_bind, bind. rewrite Hm.
  destruct (m2 t) as [t' [a|e]]; [apply Hf | done].
Qed.

Lemma bind_lift_Ok {A B} (a : A) (f : A -> M B) t : (lift (Ok a) ≫= f) t = f a t.
Proof. done. Qed.

Lemma bind_emit {B} ev (f : unit -> M B) t : (emit ev ≫= f) t = f tt (t ++ [ev]).
Proof. done. Qed.

Lemma bind_Ok {A B} (m : M A) (f : A -> M B) t t' a :
  m t = (t', Ok a) -> (m ≫= f) t = f a t'.
Proof. intros H. unfold mbind, M_bind, bind. by rewrite H. Qed.

Lemma array_map_ext {A B} (R : A -> A -> Prop) (f : A -> M B) l1 l2 :
  (forall a b, R a b -> forall t, f a t = f b t) ->
  Forall2 R l1 l2 -> forall t, array_map f l1 t = array_map f l2 t.
Proof.
  intros Hf. induction 1 as [|a b l1 l2 Hab _ IH]; intros t; [done|].
  simpl. apply bind_ext; [by apply Hf|]. intros p t'.
  apply bind_ext; [apply IH | done].
Qed.

(** ** The line-item callback reads the allow-listed properties only *)

Lemma line_item_callback_agree admin i1 i2 t :
  agree_on item_fields i1 i2 ->
  line_item_callback admin i1 t = line_item_callback admin i2 t.
Proof.
  unfold agree_on, item_fields. intros H.
  repeat (apply Forall_cons in H as [? H]).
  unfold line_item_callback. by repeat match goal with
  | E : get _ i1 = get _ i2 |- _ => rewrite E; clear E
  end.
Qed.

Lemma agree_order_line_items o1 o2 :
  agree_order o1 o2 ->
  (get "line_items" o1 = Err TypeError /\ get "line_items" o2 = Err TypeError) \/
  (exists l1 l2, get "line_items" o1 = Ok l1 /\ get "line_items" o2 = Ok l2 /\
                 agree_line_items l1 l2).
Proof.
  intros [H Hitems]. apply Forall_cons in H as [H _].
  destruct (get_cases o1) as [E1|E1], (get_cases o2) as [E2|E2];
    rewrite ?E1, ?E2 in H; try done.
  - left. by rewrite E1, E2.
  - right. exists (opt_get "line_items" o1), (opt_get "line_items" o2).
    split_and!; [done | done |]. by apply Hitems.
Qed.

Lemma transform_agree sched o1 o2 shopDomain admin t :
  agree_order o1 o2 ->
  transformOrderToNotification sched o1 shopDomain admin t
  = transformOrderToNotification sched o2 shopDomain admin t.
Proof.
  intros Hagree. pose proof (agree_order_line_items _ _ Hagree) as Hli.
  destruct Hagree as [H _]. unfold agree_on, order_fields in H.
  repeat (apply Forall_cons in H as [? H]).
  unfold transformOrderToNotification.
  repeat match goal with
  | E : get _ o1 = get _ o2 |- _ => rewrite E; clear E
  end.
  apply bind_ext; [done|]. intros _ t1.
  destruct Hli as [[-> ->] | (l1 & l2 & -> & -> & Hitems)]; [done|].
  destruct Hitems as [v | l1 l2 Hall]; [done|].
  rewrite !bind_lift_Ok. cbn [js_or truthy as_array]. rewrite !bind_lift_Ok.
  apply bind_ext; [|done].
  apply (array_map_ext (agree_on item_fields)); [|done].
  intros a b Hab t'. unfold async. by rewrite (line_item_callback_agree _ a b).
Qed.

(** ** Computations that send no HTTP request *)

Lemma fetches_app t1 t2 : fetches (t1 ++ t2) = fetches t1 ++ fetches t2.
Proof. apply omap_app. Qed.

Lemma quiet_ret {A} (a : A) : quiet (ret a).
Proof. done. Qed.

Lemma quiet_throw {A} e : quiet (@throw A e).
Proof. done. Qed.

Lemma quiet_lift {A} (r : result A) : quiet (lift r).
Proof. done. Qed.

Lemma quiet_invoke fn : quiet (emit (Invoke fn)).
Proof. intros t. simpl. by rewrite fetches_app, app_nil_r. Qed.

Lemma quiet_bind {A B} (m : M A) (f : A -> M B) :
  quiet m -> (forall a, quiet (f a)) -> quiet (m ≫= f).
Proof.
  intros Hm Hf t. unfold mbind, M_bind, bind. specialize (Hm t).
  destruct (m t) as [t' [a|e]]; simpl in *; [|done]. by rewrite Hf.
Qed.

Lemma quiet_try_catch {A} (m : M A) h :
  quiet m -> (forall e, quiet (h e)) -> quiet (try_catch m h).
Proof.
  intros Hm Hh t. unfold try_catch. specialize (Hm t).
  destruct (m t) as [t' [a|e]]; simpl in *; [done|]. by rewrite Hh.
Qed.

Lemma quiet_async {A} (m : M A) : quiet m -> quiet (async m).
Proof. intros Hm t. unfold async. specialize (Hm t). by destruct (m t). Qed.

Lemma quiet_graphql_json a id : quiet (graphql_json a id).
Proof.
  intros t. unfold graphql_json.
  destruct (graphql a t id); simpl; by rewrite fetches_app, app_nil_r.
Qed.

Lemma quiet_array_map {A B} (f : A -> M B) l :
  (forall a, quiet (f a)) -> quiet (array_map f l).
Proof.
  intros Hf. induction l as [|a l IH]; simpl; [apply quiet_ret|].
  apply quiet_bind; [done|]. intros b.
  apply quiet_bind; [done|]. intros bs. apply quiet_ret.
Qed.

Create HintDb quiet.
#[export] Hint Resolve quiet_ret quiet_throw quiet_lift quiet_invoke
  quiet_graphql_json : quiet.

Ltac quiet :=
  repeat first
    [ solve [auto with quiet]
    | match goal with
      | |- quiet (_ ≫= _) => apply quiet_bind; [|intros ?]
      | |- quiet (try_catch _ _) => apply quiet_try_catch; [|intros ?]
      | |- quiet (async _) => apply quiet_async
      | |- quiet (array_map _ _) => apply quiet_array_map; intros ?
      | |- quiet (if ?b then _ else _) => destruct b
      | |- quiet (match ?x with Some _ => _ | None => _ end) => destruct x
      end ].

Lemma quiet_fetchProductImage a pid : quiet (fetchProductImage a pid).
Proof. unfold fetchProductImage. quiet. Qed.

Lemma quiet_line_item_callback admin item : quiet (line_item_callback admin item).
Proof.
  unfold line_item_callback. pose proof quiet_fetchProductImage. quiet.
Qed.

(** ** The image lookup and the line-item callbacks *)

Lemma fetchProductImage_outcome a pid t :
  fetchProductImage a pid t =
    let h := t ++ [Invoke "fetchProductImage"] in
    match ToString pid with
    | Err e => (h, Err e)
    | Ok id =>
        (h ++ [GraphqlQuery ("gid://shopify/Product/" +:+ id)],
         Ok (image_of_outcome (graphql a h ("gid://shopify/Product/" +:+ id))))
    end.
Proof.
  unfold fetchProductImage, try_catch, graphql_json, image_of_outcome,
    mbind, M_bind, bind, emit, lift, mret, M_ret, ret.
  destruct (ToString pid) as [id|e]; [|done].
  by destruct (graphql a _ _) as [e|[data|e]].
Qed.

Lemma image_from_weaken admin t0 t t' t1 out :
  t0 `prefix_of` t -> t' `prefix_of` t1 ->
  image_from admin t t' out -> image_from admin t0 t1 out.
Proof.
  intros H0 H1 [?|(a & h & h' & ? & ? & ? & ?)]; [by left|].
  right. exists a, h, h'. split_and!; try done; by etrans.
Qed.

Lemma fetchProductImage_extends a pid t t' r :
  fetchProductImage a pid t = (t', r) -> t `prefix_of` t'.
Proof.
  rewrite fetchProductImage_outcome. cbv zeta.
  destruct (ToString pid); intros [= <- _].
  - rewrite <- app_assoc. by apply prefix_app_r.
  - by apply prefix_app_r.
Qed.

Lemma line_item_callback_object admin o q s t :
  o !! "quantity" = Some (VNumber (Int q)) ->
  ToString (default VUndefined (o !! "product_id")) = Ok s ->
  exists t' out,
    line_item_callback admin (VObject o) t = (t', Ok out) /\
    derived_from (VObject o) out /\
    quantity out = VNumber (Int q) /\
    t `prefix_of` t' /\
    image_from admin t t' out /\
    fetches t' = fetches t /\
    (admin = None -> t' = t /\ image out = VUndefined).
Proof.
  intros Hq Hs.
  assert (exists t' img,
    (match admin with
     | Some a =>
         pid ← lift (get "product_id" (VObject o));
         if truthy pid then fetchProductImage a pid else ret VUndefined
     | None => ret VUndefined
     end) t = (t', Ok img) /\ t `prefix_of` t' /\
    (img = VUndefined \/
     exists a, admin = Some a /\
       fetchProductImage a (default VUndefined (o !! "product_id")) t = (t', Ok img)) /\
    fetches t' = fetches t /\
    (admin = None -> t' = t /\ img = VUndefined))
    as (t' & img & Himg & Hpre & Hfrom & Hf & Hnone).
  { destruct admin as [a|].
    - rewrite get_object, bind_lift_Ok.
      destruct (truthy _).
      + destruct (fetchProductImage a _ t) as [t' r] eqn:Hrun.
        pose proof (fetchProductImage_extends _ _ _ _ _ Hrun) as Hpre.
        pose proof (quiet_fetchProductImage a (default VUndefined (o !! "product_id")) t) as Hquiet.
        rewrite Hrun in Hquiet.
        assert (exists img, r = Ok img) as [img ->].
        { rewrite fetchProductImage_outcome, Hs in Hrun. cbv zeta in Hrun.
          injection Hrun as _ <-; eauto. }
        exists t', img. split_and!; try done. right. eauto.
      + exists t, VUndefined. split_and!; try done. by left.
    - exists t, VUndefined. split_and!; try done. by left. }
  eexists t', _. split.
  - unfold line_item_callback. rewrite (bind_Ok _ _ _ _ _ Himg).
    rewrite !get_object, !bind_lift_Ok. reflexivity.
  - split_and!; try done.
    + simpl. by rewrite Hq.
    + destruct Hfrom as [->|(a & -> & Hrun)]; [by left|].
      right. exists a, t, t'. by split_and!.
Qed.

Lemma line_item_quantity_Some item q :
  line_item_quantity item = Some q ->
  exists o s, item = VObject o /\ o !! "quantity" = Some (VNumber (Int q)) /\
              ToString (default VUndefined (o !! "product_id")) = Ok s.
Proof.
  destruct item as [| | | | | |o]; try done. simpl.
  destruct (o !! "product_id") as [[| | |n| | |]|] eqn:Hp; try done;
    destruct (o !! "quantity") as [[| | |[|z]| | |]|] eqn:Hq; try done;
    intros [= ->]; eexists o, _; rewrite Hp, Hq; by split_and!.
Qed.

(** The callbacks of well-formed line items all fulfil. *)
Lemma callbacks_fulfil admin items qs : forall t,
  Forall2 (fun item q => line_item_quantity item = Some q) items qs ->
  exists t' outs,
    array_map (fun item => async (line_item_callback admin item)) items t
      = (t', Ok (Ok <$> outs)) /\
    Forall2 derived_from items outs /\
    Forall2 (fun out q => quantity out = VNumber (Int q)) outs qs /\
    t `prefix_of` t' /\
    Forall (image_from admin t t') outs /\
    fetches t' = fetches t /\
    (admin = None -> t' = t /\ Forall (fun out => image out = VUndefined) outs).
Proof.
  intros t H. revert t.
  induction H as [|item q items qs Hq _ IH]; intros t.
  - exists t, []. split_and!; by try constructor.
  - apply line_item_quantity_Some in Hq as (o & s & -> & Hq & Hs).
    destruct (line_item_callback_object admin o q s t Hq Hs)
      as (t1 & out & Hrun & Hder & Hqty & Hpre1 & Himg & Hf1 & Hnone1).
    destruct (IH t1)
      as (t2 & outs & Hruns & Hders & Hqtys & Hpre2 & Himgs & Hf2 & Hnone2).
    exists t2, (out :: outs). split_and!; try by constructor.
    + simpl. rewrite (bind_Ok _ _ t t1 (Ok out)); [|unfold async; by rewrite Hrun].
      by rewrite (bind_Ok _ _ _ _ _ Hruns).
    + by etrans.
    + constructor.
      * by apply (image_from_weaken admin t t t1 t2).
      * eapply Forall_impl; [exact Himgs|]. intros out'.
        by apply image_from_weaken.
    + congruence.
    + intros Hadmin. destruct (Hnone1 Hadmin) as [-> ?], (Hnone2 Hadmin) as [-> ?].
      split; by try constructor.
Qed.

Lemma reduce_quantities outs qs : forall acc,
  Forall2 (fun out q => quantity out = VNumber (Int q)) outs qs ->
  reduce (fun sum item => js_add sum (quantity item)) (VNumber (Int acc)) outs
  = Ok (VNumber (Int (acc + sum_Z qs))).
Proof.
  intros acc H. revert acc.
  induction H as [|out q outs qs Hq _ IH]; intros acc; simpl.
  - by rewrite Z.add_0_r.
  - rewrite Hq. cbn. rewrite IH. by rewrite Z.add_assoc.
Qed.

Lemma order_line_items_Some order items :
  order_line_items order = Some items ->
  exists o, order = VObject o /\
    as_array (js_or (default VUndefined (o !! "line_items")) (VArray [])) = Ok items.
Proof.
  destruct order as [| | | | | |o]; try done. simpl.
  destruct (o !! "line_items") as [[| | | | |l|]|] eqn:E; try done;
    intros [= <-]; (eexists; split; [done|]; by rewrite E).
Qed.

(** The notification of an OrderRecord, given its line items. *)
Lemma transform_OrderRecord order items qs shopDomain admin t :
  order_line_items order = Some items ->
  mapM line_item_quantity items = Some qs ->
  exists t' outs,
    (forall sched,
       transformOrderToNotification sched order shopDomain admin t =
       (t', Ok {| created_at := opt_get "created_at" order;
                  currency := opt_get "currency" order;
                  total_price := opt_get "total_price" order;
                  subtotal_price := opt_get "subtotal_price" order;
                  total_tax := opt_get "total_tax" order;
                  total_discounts := opt_get "total_discounts" order;
                  item_count := VNumber (Int (sum_Z qs));
                  line_items := outs;
                  shop := if truthy (optional_string shopDomain)
                          then optional_string shopDomain
                          else js_or (opt_get "shop_domain" order) (VString "");
                  test := js_or (opt_get "test" order) (VBool false);
                  total_weight := opt_get "total_weight" order;
                  tags := opt_get "tags" order;
                  source_name := opt_get "source_name" order |})) /\
    Forall2 derived_from items outs /\
    Forall (image_from admin t t') outs /\
    fetches t' = fetches t /\
    (admin = None ->
       t' = t ++ [Invoke "transformOrderToNotification"] /\
       Forall (fun out => image out = VUndefined) outs).
Proof.
  intros Hitems Hqs. apply mapM_Some in Hqs.
  apply order_line_items_Some in Hitems as (o & -> & Harr).
  destruct (callbacks_fulfil admin items qs
              (t ++ [Invoke "transformOrderToNotification"]) Hqs)
    as (t' & outs & Hrun & Hder & Hqty & Hpre & Himg & Hf & Hnone).
  exists t', outs. split_and!; try done.
  - intros sched. unfold transformOrderToNotification.
    rewrite bind_emit, !get_object, bind_lift_Ok, Harr, bind_lift_Ok.
    rewrite (bind_Ok _ _ _ _ _ Hrun). unfold await. rewrite Promise_all_fulfilled, bind_lift_Ok.
    rewrite (reduce_quantities outs qs 0 Hqty), bind_lift_Ok.
    rewrite !bind_lift_Ok.
    destruct (truthy (optional_string shopDomain)); reflexivity.
  - eapply Forall_impl; [exact Himg|]. intros out.
    apply image_from_weaken; [by apply prefix_app_r | done].
  - rewrite Hf. unfold fetches. by rewrite omap_app, app_nil_r.
Qed.

(** The transformation sends no HTTP request, whatever it is given. *)
Lemma quiet_transform sched order shopDomain admin :
  quiet (transformOrderToNotification sched order shopDomain admin).
Proof.
  unfold transformOrderToNotification, await.
  pose proof quiet_line_item_callback. quiet.
Qed.

(** ** The publisher, case by case *)

Lemma api_key_None world :
  api_key world = None ->
  forall sourceName data custom t,
    publishToHookdeck world sourceName data custom t =
    (t ++ [Invoke "publishToHookdeck"],
     Err (Error "HOOKDECK_API_KEY environment variable is not set")).
Proof.
  unfold api_key, publishToHookdeck. intros H sourceName data custom t.
  rewrite bind_emit.
  destruct (env world !! "HOOKDECK_API_KEY") as [key|]; [|done].
  by destruct (String.eqb key "").
Qed.

Lemma api_key_Some world key :
  api_key world = Some key ->
  forall sourceName data custom t,
    publishToHookdeck world sourceName data custom t =
    let h := t ++ [Invoke "publishToHookdeck"] in
    let req := request_of key sourceName data custom in
    (h ++ [HttpFetch req], publish_result (fetch world h req)).
Proof.
  unfold api_key, publishToHookdeck. intros H sourceName data custom t.
  rewrite bind_emit. cbv zeta. fold (request_of key sourceName data custom).
  destruct (env world !! "HOOKDECK_API_KEY") as [key'|]; [|done].
  destruct (String.eqb key' "") eqn:E; [done|]. injection H as ->.
  fold (request_of key sourceName data custom).
  unfold try_catch, do_fetch, mbind, M_bind, bind, publish_result, response_json.
  destruct (fetch world _ _) as [e|r]; [done|].
  destruct (ok r); [|done]. by destruct (json_body r).
Qed.

Lemma stringify_data data :
  stringify (VObject {[ "data" := data ]}) =
  Some (JObject (from_option (fun j => {[ "data" := j ]}) ∅ (stringify data))).
Proof.
  simpl. f_equal. f_equal. rewrite omap_singleton.
  by destruct (stringify data).
Qed.

Lemma try_catch_rethrow {A} (m : M A) t :
  try_catch m (fun error => throw error) t = m t.
Proof. unfold try_catch, throw. by destruct (m t) as [t' [a|e]]. Qed.

Lemma publishOrderNotification_run world sched order shopDomain admin t t1 n :
  transformOrderToNotification sched order shopDomain admin
    (t ++ [Invoke "publishOrderNotification"]) = (t1, Ok n) ->
  publishOrderNotification world sched order shopDomain admin t =
    match publishToHookdeck world "shopify-notifications-publish"
            (notification_value n) None t1 with
    | (t2, Ok result) => (t2, (fun _ => result) <$> get "id" result)
    | (t2, Err e) => (t2, Err e)
    end.
Proof.
  intros Hn. unfold publishOrderNotification.
  rewrite bind_emit, try_catch_rethrow, (bind_Ok _ _ _ _ _ Hn).
  unfold mbind at 1, M_bind at 1, bind at 1.
  destruct (publishToHookdeck _ _ _ _ _) as [t2 [result|e]]; [|done].
  unfold mbind, M_bind, bind, lift. by destruct (get "id" result).
Qed.



Lemma publishToHookdeck_trace world sourceName data custom t :
  (publishToHookdeck world sourceName data custom t).1 =
  t ++ [Invoke "publishToHookdeck"] ++
  match api_key world with
  | Some key => [HttpFetch (request_of key sourceName data custom)]
  | None => []
  end.
Proof.
  destruct (api_key world) as [key|] eqn:E.
  - rewrite (api_key_Some _ _ E). cbv zeta. simpl. by rewrite <- app_assoc.
  - by rewrite (api_key_None _ E).
Qed.


Lemma stringify_notification n :
  exists j, stringify (notification_value n) = Some j.
Proof. by eexists. Qed.

Lemma request_of_publish_request key sourceName data j :
  stringify data = Some j ->
  request_of key sourceName data None = publish_request key sourceName j.
Proof.
  intros H. unfold request_of, publish_request.
  rewrite stringify_data, H. cbn [from_option default].
  by rewrite (left_id_L ∅ (∪)).
Qed.

Lemma publishOrderNotification_fetches world sched order shopDomain admin t t1 n :
  transformOrderToNotification sched order shopDomain admin
    (t ++ [Invoke "publishOrderNotification"]) = (t1, Ok n) ->
  fetches (publishOrderNotification world sched order shopDomain admin t).1 =
  fetches t ++
  match api_key world with
  | Some key => [request_of key "shopify-notifications-publish"
                   (notification_value n) None]
  | None => []
  end.
Proof.
  intros Hn. rewrite (publishOrderNotification_run _ _ _ _ _ _ _ _ Hn).
  pose proof (publishToHookdeck_trace world "shopify-notifications-publish"
                (notification_value n) None t1) as Htrace.
  pose proof (quiet_transform sched order shopDomain admin
                (t ++ [Invoke "publishOrderNotification"])) as Hquiet.
  rewrite Hn in Hquiet. simpl in Hquiet.
  rewrite fetches_app, app_nil_r in Hquiet.
  destruct (publishToHookdeck _ _ _ _ _) as [t2 [result|e]]; simpl in *;
    subst t2; rewrite !fetches_app, Hquiet; by destruct (api_key world).
Qed.



(** ** The claims *)

(** C1.  Privacy as non-interference: two orders that agree on the
    allow-listed properties (the order-level ones and, item by item, the
    line-item ones) yield the same run of [transformOrderToNotification],
    the same queries and the same notification or the same failure,
    whatever else they contain: customer name, email, phone, addresses,
    payment details, IP address or any other property. *)
Theorem transform_noninterference sched o1 o2 shopDomain admin t :
  agree_order o1 o2 ->
  transformOrderToNotification sched o1 shopDomain admin t
  = transformOrderToNotification sched o2 shopDomain admin t.
Proof. apply transform_agree. Qed.

Lemma transform_noninterference_witness :
  agree_order mug_order mug_order' /\
  transformOrderToNotification [] mug_order None (Some catalogue) []
  = transformOrderToNotification [] mug_order' None (Some catalogue) [].
Proof.
  assert (agree_order mug_order mug_order') as H.
  { split.
    - unfold agree_on, order_fields. repeat constructor.
    - intros l1 l2 [= <-] [= <-]. apply agree_line_items_array.
      unfold agree_on, item_fields. repeat constructor. }
  split; [exact H|]. apply (transform_noninterference _ _ _ _ _ _ H).
Defined.





(** C4, as amended.  [publishToHookdeck] throws exactly in four cases:
    the credential is not configured (and then nothing is sent), the
    network call fails, the endpoint answers with a status outside
    200..299, or it answers inside that range with a body that is not
    JSON.  For a status outside 200..299 the error's message carries the
    status and the body of the response.  A call returns a value only
    when the endpoint accepted the request, and the value is then the
    whole decoded body. *)
Theorem publish_fails_exactly_when world sourceName data custom t :
  (forall e,
     (publishToHookdeck world sourceName data custom t).2 = Err e <->
     publish_failure world sourceName data custom t e) /\
  (forall v,
     (publishToHookdeck world sourceName data custom t).2 = Ok v <->
     exists key r,
       api_key world = Some key /\
       fetch world (t ++ [Invoke "publishToHookdeck"])
         (request_of key sourceName data custom) = FetchResolves r /\
       ok r = true /\ json_body r = Some v).
Proof.
  destruct (api_key world) as [key|] eqn:Hkey.
  - rewrite (api_key_Some _ _ Hkey). cbv zeta. simpl. unfold publish_result.
    split.
    + intros e. split.
      * destruct (fetch world _ _) as [e'|r] eqn:Hfetch.
        -- intros [= <-]. by eapply network_failure.
        -- destruct (ok r) eqn:Hok.
           ++ destruct (json_body r) eqn:Hbody; [done|].
              intros [= <-]. by eapply undecodable_body.
           ++ intros [= <-]. by eapply bad_status.
      * intros [?|key' e' Hk Hf|key' r Hk Hf Hok|key' r Hk Hf Hok Hbody];
          simplify_eq; rewrite Hf; [done| |]; by rewrite Hok, ?Hbody.
    + intros v. split.
      * destruct (fetch world _ _) as [e'|r] eqn:Hfetch; [done|].
        destruct (ok r) eqn:Hok; [|done].
        destruct (json_body r) eqn:Hbody; [|done].
        intros [= <-]. by exists key, r.
      * intros (key' & r & Hk & Hf & Hok & Hbody). simplify_eq.
        by rewrite Hf, Hok, Hbody.
  - rewrite (api_key_None _ Hkey). simpl. split.
    + intros e. split.
      * intros [= <-]. by apply no_credential.
      * by intros [?|? ? ?|? ? ?|? ? ?]; simplify_eq.
    + intros v. split; [done|]. by intros (? & ? & ? & _).
Qed.

(** C4 as stated does not hold: with the credential unset the call
    throws although the endpoint would answer 200, and with the
    credential set it throws on a 200 answer whose body is not JSON. *)
Lemma publish_fails_without_endpoint_failure :
  (forall h req, exists r, fetch unconfigured h req = FetchResolves r /\ ok r = true) /\
  (publishToHookdeck unconfigured "shopify-notifications-publish" VNull None []).2
  = Err (Error "HOOKDECK_API_KEY environment variable is not set") /\
  (forall h req, exists r, fetch garbled h req = FetchResolves r /\ ok r = true) /\
  (publishToHookdeck garbled "shopify-notifications-publish" VNull None []).2
  = Err SyntaxError.
Proof.
  split_and!; try reflexivity; intros h req; eexists; split; reflexivity.
Qed.

(** C5.  A request whose signature does not validate against the shared
    secret is rejected at once: [action] throws the rejection response and
    the history is unchanged, so that neither
    [transformOrderToNotification] nor [publishToHookdeck] is entered, no
    product is queried and nothing is sent.  This holds for both revisions
    of the route. *)
Theorem invalid_signature_is_rejected
    world sched secret sign decode session request t :
  request_signature request <> sign secret (request_body request) ->
  WebhooksOrdersCreate.action world sched secret sign decode session request t
  = (t, Err (ThrownResponse 401)) /\
  WebhooksOrdersCreateScaffold.action secret sign decode session request t
  = (t, Err (ThrownResponse 401)).
Proof.
  intros H. apply String.eqb_neq in H.
  unfold WebhooksOrdersCreate.action, WebhooksOrdersCreateScaffold.action,
    authenticate_webhook.
  rewrite H. by split.
Qed.

Lemma invalid_signature_is_rejected_witness :
  request_signature forged <> toy_sign "s3cret" (request_body forged) /\
  WebhooksOrdersCreate.action configured [] "s3cret" toy_sign
    (fun _ => mug_order) (fun _ => Some catalogue) forged []
  = ([], Err (ThrownResponse 401)) /\
  WebhooksOrdersCreateScaffold.action "s3cret" toy_sign
    (fun _ => mug_order) (fun _ => Some catalogue) forged []
  = ([], Err (ThrownResponse 401)).
Proof.
  assert (request_signature forged <> toy_sign "s3cret" (request_body forged)) as H
    by (vm_compute; discriminate).
  split; [exact H|].
  apply (invalid_signature_is_rejected configured [] "s3cret" toy_sign
           (fun _ => mug_order) (fun _ => Some catalogue) forged [] H).
Defined.



(** C7, as amended.  A call of [publishOrderNotification] on an
    OrderRecord, with the credential configured, sends exactly one HTTP
    request: a POST to https://hkdk.events/v1/publish whose headers are
    Content-Type: application/json, Authorization: Bearer followed by the
    credential, and X-Hookdeck-Source-Name: shopify-notifications-publish,
    and whose body is the JSON object with the single member [data], the
    notification the transformation produced. *)
Theorem publish_sends_one_post world sched order shopDomain admin t key qs :
  api_key world = Some key ->
  order_quantities order = Some qs ->
  exists t1 n j,
    transformOrderToNotification sched order shopDomain admin
      (t ++ [Invoke "publishOrderNotification"]) = (t1, Ok n) /\
    stringify (notification_value n) = Some j /\
    fetches (publishOrderNotification world sched order shopDomain admin t).1 =
    fetches t ++
    [ {| url := "https://hkdk.events/v1/publish";
         method := "POST";
         headers := {[ "Content-Type" := "application/json";
                       "Authorization" := "Bearer " +:+ key;
                       "X-Hookdeck-Source-Name" := "shopify-notifications-publish" ]};
         body := Some (JObject {[ "data" := j ]}) |} ].
Proof.
  intros Hkey Hqs. unfold order_quantities in Hqs.
  destruct (order_line_items order) as [items|] eqn:Hitems; [|done].
  simpl in Hqs.
  destruct (transform_OrderRecord order items qs shopDomain admin
              (t ++ [Invoke "publishOrderNotification"]) Hitems Hqs)
    as (t1 & outs & Hrun & _). specialize (Hrun sched).
  match type of Hrun with _ = (_, Ok ?r) => set (n := r) in * end.
  destruct (stringify_notification n) as [j Hj].
  exists t1, n, j. split; [exact Hrun|]. split; [exact Hj|].
  rewrite (publishOrderNotification_fetches _ _ _ _ _ _ _ _ Hrun), Hkey.
  by rewrite (request_of_publish_request _ _ _ _ Hj).
Qed.

Lemma publish_sends_one_post_witness :
  api_key configured = Some "hk_test" /\
  order_quantities mug_order = Some [2] /\
  exists j,
    fetches (publishOrderNotification configured [] mug_order
               (Some "demo.myshopify.com") (Some catalogue) []).1 =
    [publish_request "hk_test" "shopify-notifications-publish" j].
Proof.
  split; [reflexivity|]. split; [reflexivity|].
  destruct (publish_sends_one_post configured [] mug_order
              (Some "demo.myshopify.com") (Some catalogue) [] "hk_test" [2]
              eq_refl eq_refl) as (t1 & n & j & _ & _ & Hsent).
  exists j. exact Hsent.
Defined.

(** C7 as stated does not hold: without the credential a call of
    [publishOrderNotification] sends nothing. *)
Lemma publish_without_credential_sends_nothing :
  order_quantities mug_order = Some [2] /\
  fetches (publishOrderNotification unconfigured [] mug_order
             (Some "demo.myshopify.com") None []).1 = [].
Proof. split; reflexivity. Qed.





(** C10, as amended.  For an OrderRecord whose [shop_domain] is a string
    or absent and whose [test] flag is a boolean or absent, [shop] is a
    string: the [shopDomain] argument when it is given and not empty,
    otherwise the order's [shop_domain], otherwise the empty string; and
    [test] is a boolean: the order's flag, [false] when it is absent. *)
Theorem shop_and_test_defaults
    sched order shopDomain admin t qs domain flag :
  order_quantities order = Some qs ->
  shop_domain_of order = Some domain ->
  test_flag_of order = Some flag ->
  exists t' n,
    transformOrderToNotification sched order shopDomain admin t = (t', Ok n) /\
    shop n = VString (match shopDomain with
                      | Some d => if String.eqb d "" then domain else d
                      | None => domain
                      end) /\
    test n = VBool flag.
Proof.
  unfold order_quantities, shop_domain_of, test_flag_of. intros Hqs Hshop Htest.
  destruct (order_line_items order) as [items|] eqn:Hitems; [|done].
  simpl in Hqs.
  destruct (transform_OrderRecord order items qs shopDomain admin t Hitems Hqs)
    as (t' & outs & Hrun & _).
  eexists t', _. split; [apply Hrun|]. simpl. split.
  - assert (js_or (opt_get "shop_domain" order) (VString "") = VString domain) as Hor.
    { destruct (opt_get "shop_domain" order) as [| | | |s| |]; simplify_eq; [done|].
      unfold js_or. simpl. destruct (String.eqb_spec domain ""); by subst. }
    destruct shopDomain as [d|]; simpl; [|done].
    by destruct (String.eqb d "").
  - by destruct (opt_get "test" order) as [| |[]| | | |]; simplify_eq.
Qed.

Lemma shop_and_test_defaults_witness :
  order_quantities mug_order = Some [2] /\
  shop_domain_of mug_order = Some "" /\
  test_flag_of mug_order = Some false /\
  exists t' n,
    transformOrderToNotification [] mug_order (Some "demo.myshopify.com")
      (Some catalogue) [] = (t', Ok n) /\
    shop n = VString "demo.myshopify.com" /\
    test n = VBool false.
Proof.
  split; [reflexivity|]. split; [reflexivity|]. split; [reflexivity|].
  apply (shop_and_test_defaults [] mug_order (Some "demo.myshopify.com")
           (Some catalogue) [] [2] "" false); reflexivity.
Defined.

(** C10 as stated does not hold: an empty [shopDomain] argument is given,
    yet [shop] is the order's [shop_domain]. *)
Lemma empty_shopDomain_is_passed_over :
  order_quantities shop_order = Some [] /\
  shop <$> (transformOrderToNotification [] shop_order (Some "") None []).2
  = Ok (VString "a.myshopify.com") /\
  shop <$> (transformOrderToNotification [] shop_order (Some "") None []).2
  <> Ok (VString "").
Proof. split_and!; [reflexivity | reflexivity | discriminate]. Qed.

(** ** Further consequences *)

(** Setting, replacing or adding any property outside the allow-list
    leaves the run of the transformation as it was. *)
Lemma transform_ignores_other_properties sched o k v shopDomain admin t :
  k ∉ "line_items" :: order_fields ->
  transformOrderToNotification sched (VObject (<[k := v]> o)) shopDomain admin t
  = transformOrderToNotification sched (VObject o) shopDomain admin t.
Proof.
  intros Hk. apply transform_agree. split.
  - apply Forall_forall. intros k' Hk'. rewrite !get_object.
    rewrite lookup_insert_ne; [done|]. intros ->. apply Hk. by right.
  - intros l1 l2. rewrite !get_object.
    rewrite lookup_insert_ne; [|intros ->; apply Hk; by left].
    intros [= <-] [= <-]. constructor.
Qed.

(** The scaffolded revision of the route ends an authenticated request
    that has no admin capability with an empty response and touches
    nothing; it neither normalizes nor publishes in any case. *)
Lemma scaffold_without_admin secret sign decode session request t :
  request_signature request = sign secret (request_body request) ->
  session (request_shop request) = None ->
  WebhooksOrdersCreateScaffold.action secret sign decode session request t
  = (t, Err (ThrownResponse 200)).
Proof.
  intros Hsig Hadmin. apply String.eqb_eq in Hsig.
  unfold WebhooksOrdersCreateScaffold.action, authenticate_webhook.
  rewrite Hsig, (bind_Ok _ _ t t _ eq_refl). simpl. by rewrite Hadmin.
Qed.

(** ** Further properties of the code *)

(** X1.  Custom headers passed to [publishToHookdeck] are spread last
    into the request's headers: when the credential is configured, the
    one request that is sent carries every custom header with the value
    given, also where it names [Content-Type], [Authorization] or
    [X-Hookdeck-Source-Name], and carries the default value of these
    three under every name the custom headers leave out. *)
Theorem custom_headers_take_precedence world key sourceName data custom t :
  api_key world = Some key ->
  exists req,
    fetches (publishToHookdeck world sourceName data (Some custom) t).1
    = fetches t ++ [req] /\
    (forall k v, custom !! k = Some v -> headers req !! k = Some v) /\
    (forall k, custom !! k = None ->
       headers req !! k =
       ({[ "Content-Type" := "application/json";
           "Authorization" := "Bearer " +:+ key;
           "X-Hookdeck-Source-Name" := sourceName ]} : gmap string string) !! k).
Proof.
  intros Hkey. exists (request_of key sourceName data (Some custom)).
  split_and!.
  - by rewrite publishToHookdeck_trace, Hkey, !fetches_app.
  - intros k v Hk. simpl. by apply lookup_union_Some_l.
  - intros k Hk. simpl. by apply lookup_union_r.
Qed.

Lemma custom_headers_take_precedence_witness :
  api_key configured = Some "hk_test" /\
  exists req,
    fetches (publishToHookdeck configured "s" VNull
               (Some {[ "Authorization" := "Basic abc" ]}) []).1 = [req] /\
    headers req !! "Authorization" = Some "Basic abc".
Proof.
  split; [reflexivity|].
  destruct (custom_headers_take_precedence configured "hk_test" "s" VNull
              {[ "Authorization" := "Basic abc" ]} [] eq_refl)
    as (req & Hreq & Hcustom & _).
  exists req. split; [exact Hreq|]. by apply Hcustom.
Defined.

(** X2.  [publishOrderNotification] reads [result.id] after the
    notification was sent.  For an order with well-formed line items, a
    configured credential and an endpoint that answers inside 200..299
    with a JSON body, exactly one request is sent, and the call returns
    the decoded body, except that a body that decodes to [null] makes it
    throw a [TypeError] although the endpoint accepted the notification. *)
Theorem accepted_body_is_returned_unless_null
    world sched order shopDomain admin t key qs r v :
  api_key world = Some key ->
  order_quantities order = Some qs ->
  (forall h req, fetch world h req = FetchResolves r) ->
  ok r = true ->
  json_body r = Some v ->
  exists req,
    (publishOrderNotification world sched order shopDomain admin t).2
    = match v with
      | VUndefined | VNull => Err TypeError
      | _ => Ok v
      end /\
    fetches (publishOrderNotification world sched order shopDomain admin t).1
    = fetches t ++ [req].
Proof.
  intros Hkey Hqs Hfetch Hok Hbody. unfold order_quantities in Hqs.
  destruct (order_line_items order) as [items|] eqn:Hitems; [|done].
  simpl in Hqs.
  destruct (transform_OrderRecord order items qs shopDomain admin
              (t ++ [Invoke "publishOrderNotification"]) Hitems Hqs)
    as (t1 & outs & Hrun & _). specialize (Hrun sched).
  eexists. split.
  - rewrite (publishOrderNotification_run _ _ _ _ _ _ _ _ Hrun).
    rewrite (api_key_Some _ _ Hkey). cbv zeta. rewrite Hfetch. simpl.
    rewrite Hok, Hbody. by destruct v.
  - rewrite (publishOrderNotification_fetches _ _ _ _ _ _ _ _ Hrun), Hkey.
    reflexivity.
Qed.

Lemma accepted_body_is_returned_unless_null_witness :
  exists req,
    (publishOrderNotification laconic [] mug_order None None []).2
    = Err TypeError /\
    fetches (publishOrderNotification laconic [] mug_order None None []).1
    = [req].
Proof.
  apply (accepted_body_is_returned_unless_null laconic [] mug_order None None []
           "hk_test" [2]
           {| status := 200; statusText := "OK"; text := "null";
              json_body := Some VNull |} VNull);
    first [reflexivity | intros; reflexivity].
Defined.

Lemma still_ret {A} (a : A) : still (ret a).
Proof. done. Qed.
Lemma still_lift {A} (r : result A) : still (lift r).
Proof. done. Qed.
Lemma still_bind {A B} (m : M A) (f : A -> M B) :
  still m -> (forall a, still (f a)) -> still (m ≫= f).
Proof.
  intros Hm Hf t. unfold mbind, M_bind, bind. specialize (Hm t).
  destruct (m t) as [t' [a|e]]; simpl in *; subst; [apply Hf | done].
Qed.
Lemma still_async {A} (m : M A) : still m -> still (async m).
Proof. intros Hm t. unfold async. specialize (Hm t). by destruct (m t). Qed.
Lemma still_array_map {A B} (f : A -> M B) l :
  (forall a, still (f a)) -> still (array_map f l).
Proof.
  intros Hf. induction l as [|a l IH]; simpl; [apply still_ret|].
  apply still_bind; [done|]. intros b.
  apply still_bind; [done|]. intros bs. apply still_ret.
Qed.

Ltac still :=
  repeat first
    [ assumption | apply still_ret | apply still_lift
    | match goal with
      | |- still (_ ≫= _) => apply still_bind; [|intros ?]
      | |- still (async _) => apply still_async
      | |- still (array_map _ _) => apply still_array_map; intros ?
      | |- still (if ?b then _ else _) => destruct b
      end ].

Lemma still_line_item_callback item : still (line_item_callback None item).
Proof. unfold line_item_callback. still. Qed.

(** X3.  Without an admin client [transformOrderToNotification] is
    offline on every input, a malformed one included: whether it returns
    or throws, it sends no GraphQL query and no HTTP request, and the only
    entry it adds to the history is its own invocation. *)
Theorem transform_without_admin_is_offline sched order shopDomain t :
  (transformOrderToNotification sched order shopDomain None t).1
  = t ++ [Invoke "transformOrderToNotification"].
Proof.
  unfold transformOrderToNotification. rewrite bind_emit. cbv beta.
  match goal with |- (?m _).1 = _ => assert (still m) as H end.
  { pose proof still_line_item_callback as Hcb. unfold await.
    still; apply Hcb. }
  apply H.
Qed.

(** X4.  [transformOrderToNotification] does not validate its input.  An
    order that is [undefined] or [null], or whose [line_items] is truthy
    but not an array (a string, a number, an object), makes it throw a
    [TypeError] at once: no line item is looked at and no product is
    queried, with or without an admin client. *)
Theorem transform_rejects_malformed_orders sched order shopDomain admin t :
  (order = VUndefined \/ order = VNull \/
   exists li, get "line_items" order = Ok li /\ truthy li = true /\
              forall l, li <> VArray l) ->
  transformOrderToNotification sched order shopDomain admin t
  = (t ++ [Invoke "transformOrderToNotification"], Err TypeError).
Proof.
  unfold transformOrderToNotification. rewrite bind_emit.
  intros [->| [->| (li & Hli & Htruthy & Harr)]]; try done.
  rewrite Hli, bind_lift_Ok. unfold js_or. rewrite Htruthy.
  destruct li; try done. by destruct (Harr l).
Qed.

Lemma transform_rejects_malformed_orders_witness :
  transformOrderToNotification [] mislabelled None (Some catalogue) []
  = ([Invoke "transformOrderToNotification"], Err TypeError).
Proof.
  apply (transform_rejects_malformed_orders [] mislabelled None (Some catalogue) []).
  right. right. exists (VString "1 x Mug"). split_and!; [reflexivity..|done].
Defined.

(** ** Induction on values through arrays *)
Section ValueInd.
Context (P : value -> Prop).
Context (Hundef : P VUndefined) (Hnull : P VNull) (Hbool : forall b, P (VBool b)).
Context (Hnum : forall n, P (VNumber n)) (Hstr : forall s, P (VString s)).
Context (Harr : forall l, Forall P l -> P (VArray l)).
Context (Hobj : forall o, P (VObject o)).

Lemma value_array_ind (v : value) : P v.
Proof using All.
  revert v. fix IH 1. intros [ | |b|n|s|l|o].
  - exact Hundef.
  - exact Hnull.
  - apply Hbool.
  - apply Hnum.
  - apply Hstr.
  - apply Harr. induction l as [|x l IHl]; constructor; [apply IH | exact IHl].
  - apply Hobj.
Qed.
End ValueInd.

Lemma ToString_array_cons e rest :
  ToString (VArray (e :: rest)) =
  match (match e with VUndefined | VNull => Ok "" | _ => ToString e end) with
  | Err x => Err x
  | Ok s => match rest with
            | [] => Ok s
            | _ => match ToString (VArray rest) with
                   | Ok r => Ok (s +:+ "," +:+ r)
                   | Err x => Err x
                   end
            end
  end.
Proof. done. Qed.

(** The only error of [ToString] is [TypeError]. *)
Lemma ToString_Err v : forall e, ToString v = Err e -> e = TypeError.
Proof.
  induction v as [| |[]| | |l IH|o] using value_array_ind; intros e; try done.
  - induction IH as [|x l Hx _ IHl]; [done|].
    rewrite ToString_array_cons.
    match goal with |- match ?h with _ => _ end = _ -> _ => set (hd := h) end.
    assert (forall e', hd = Err e' -> e' = TypeError) as Hhd
      by (subst hd; destruct x; try done; apply Hx).
    destruct hd as [s|e']; [|intros [= <-]; by apply Hhd].
    destruct l as [|y l']; [done|].
    destruct (ToString (VArray (y :: l'))) as [r|e'] eqn:E'; [done|].
    intros [= <-]. by apply IHl.
  - simpl. destruct (o !! "toString"); [by intros [= <-]|done].
Qed.

Lemma get_Err k v e : get k v = Err e -> e = TypeError.
Proof. destruct v; simpl; congruence. Qed.

Lemma fetchProductImage_Err a pid t e :
  (fetchProductImage a pid t).2 = Err e -> e = TypeError.
Proof.
  rewrite fetchProductImage_outcome. cbv zeta.
  destruct (ToString pid) as [s|e'] eqn:E; simpl; [done|].
  intros [= <-]. by eapply ToString_Err.
Qed.

Lemma type_errors_ret {A} (a : A) : type_errors (ret a).
Proof. done. Qed.

Lemma type_errors_get k v : type_errors (lift (get k v)).
Proof. intros t e. apply get_Err. Qed.

Lemma type_errors_bind {A B} (m : M A) (f : A -> M B) :
  type_errors m -> (forall a, type_errors (f a)) -> type_errors (m ≫= f).
Proof.
  intros Hm Hf t e. unfold mbind, M_bind, bind. specialize (Hm t).
  destruct (m t) as [t' [a|e']]; simpl in *; [apply Hf | intros [= <-]; by apply Hm].
Qed.

Lemma type_errors_fetchProductImage a pid : type_errors (fetchProductImage a pid).
Proof. intros t e. apply fetchProductImage_Err. Qed.

(** A line-item callback can only reject with a [TypeError]. *)
Lemma line_item_callback_Err admin item t e :
  (line_item_callback admin item t).2 = Err e -> e = TypeError.
Proof.
  revert t e. change (type_errors (line_item_callback admin item)).
  unfold line_item_callback.
  repeat first
    [ apply type_errors_ret | apply type_errors_get
    | apply type_errors_fetchProductImage
    | match goal with
      | |- type_errors (_ ≫= _) => apply type_errors_bind; [|intros ?]
      | |- type_errors (if ?b then _ else _) => destruct b
      | |- type_errors (match ?x with Some _ => _ | None => _ end) => destruct x
      end ].
Qed.

Lemma line_item_callback_nullish admin item t :
  item = VUndefined \/ item = VNull ->
  (line_item_callback admin item t).2 = Err TypeError.
Proof. intros [->| ->]; by destruct admin. Qed.

(** ** Promise.all rejects as soon as a promise rejects *)

Lemma settle_must_reject {A} fuel : forall sched (pending : list (nat * Promise A)) values i e,
  (length pending <= fuel)%nat ->
  (i, Err e) ∈ pending ->
  exists e', settle fuel sched pending values = Err e'.
Proof.
  induction fuel as [|fuel IH]; intros sched pending values i e Hfuel Hin.
  - destruct pending; [by apply elem_of_nil in Hin | simpl in Hfuel; lia].
  - simpl.
    assert (0 < length pending)%nat as Hpos.
    { destruct pending; [by apply elem_of_nil in Hin | simpl; lia]. }
    set (k := next_to_settle sched pending).
    assert (k < length pending)%nat as Hk by (apply Nat.mod_upper_bound; lia).
    destruct (lookup_lt_is_Some_2 pending k Hk) as [[j [v|e']] Hlook];
      rewrite Hlook; [|eauto].
    apply (IH _ _ _ i e).
    + rewrite length_delete; [lia | eauto].
    + apply list_elem_of_lookup in Hin as [n Hn]. apply list_elem_of_lookup.
      assert (n ≠ k) by (intros ->; rewrite Hlook in Hn; by simplify_eq).
      destruct (decide (n < k)%nat).
      * exists n. by rewrite list_lookup_delete_lt.
      * exists (n - 1)%nat. rewrite list_lookup_delete_ge; [|lia].
        by replace (S (n - 1)) with n by lia.
Qed.

(** If some promise rejects, so does [Promise.all], with the error of one
    of its promises, for every order of settlement. *)
Lemma Promise_all_rejects {A} sched (promises : list (Promise A)) i e :
  promises !! i = Some (Err e) ->
  exists e', Promise_all sched promises = Err e' /\ Err e' ∈ promises.
Proof.
  intros Hi. unfold Promise_all.
  destruct (settle_must_reject (length promises) sched (imap pair promises)
              (replicate (length promises) None) i e) as [e' He'].
  - by rewrite length_imap.
  - apply list_elem_of_lookup. exists i. by rewrite list_lookup_imap, Hi.
  - rewrite He'. exists e'. split; [done|].
    apply settle_rejected in He' as (j & _ & Hj).
    apply list_elem_of_lookup in Hj as [n Hn].
    rewrite list_lookup_imap in Hn.
    destruct (promises !! n) as [p|] eqn:Hp; simplify_eq/=.
    apply list_elem_of_lookup. eauto.
Qed.

(** The settlements of the callbacks of a line-item array. *)
Lemma callbacks_settle admin items : forall t,
  exists t' promises,
    array_map (fun item => async (line_item_callback admin item)) items t
    = (t', Ok promises) /\
    Forall2 (fun item p => exists h, p = (line_item_callback admin item h).2)
      items promises.
Proof.
  induction items as [|item items IH]; intros t.
  - exists t, []. by split.
  - destruct (line_item_callback admin item t) as [t1 r] eqn:Hrun.
    destruct (IH t1) as (t2 & ps & Hruns & Hall).
    exists t2, (r :: ps). split.
    + simpl. rewrite (bind_Ok _ _ t t1 r); [|unfold async; by rewrite Hrun].
      by rewrite (bind_Ok _ _ _ _ _ Hruns).
    + constructor; [|done]. exists t. by rewrite Hrun.
Qed.

Lemma order_line_items_array order items :
  order_line_items order = Some items ->
  exists li, get "line_items" order = Ok li /\
             as_array (js_or li (VArray [])) = Ok items.
Proof.
  intros H. apply order_line_items_Some in H as (o & -> & H). eauto.
Qed.

(** X5.  The line-item callback reads [item.product_id] and [item.name]
    from each entry without checking it.  If any entry of [line_items] is
    [null] (or [undefined]), its promise rejects with a [TypeError], and
    so [transformOrderToNotification] throws a [TypeError], whatever the
    other entries are, with or without an admin client, and in whatever
    order the promises settle. *)
Theorem null_line_item_fails_the_transformation
    sched order shopDomain admin t items i item :
  order_line_items order = Some items ->
  items !! i = Some item ->
  item = VUndefined \/ item = VNull ->
  (transformOrderToNotification sched order shopDomain admin t).2 = Err TypeError.
Proof.
  intros Hitems Hi Hnull.
  apply order_line_items_array in Hitems as (li & Hli & Harr).
  unfold transformOrderToNotification.
  rewrite bind_emit, Hli, bind_lift_Ok, Harr, bind_lift_Ok.
  destruct (callbacks_settle admin items (t ++ [Invoke "transformOrderToNotification"]))
    as (t' & ps & Hrun & Hall).
  rewrite (bind_Ok _ _ _ _ _ Hrun).
  destruct (Forall2_lookup_l _ _ _ _ _ Hall Hi) as (p & Hp & h & ->).
  rewrite (line_item_callback_nullish admin item h Hnull) in Hp.
  destruct (Promise_all_rejects sched ps i TypeError Hp) as (e' & He' & Hin).
  unfold await. rewrite He'. simpl.
  apply list_elem_of_lookup in Hin as [n Hn].
  destruct (Forall2_lookup_r _ _ _ _ _ Hall Hn) as (item' & _ & h' & Heq).
  symmetry in Heq. apply line_item_callback_Err in Heq. by subst.
Qed.

Lemma null_line_item_fails_the_transformation_witness :
  (transformOrderToNotification [2%nat; 0%nat; 1%nat] torn_basket None (Some catalogue) []).2
  = Err TypeError.
Proof.
  apply (null_line_item_fails_the_transformation [2%nat; 0%nat; 1%nat] torn_basket None
           (Some catalogue) [] [mug; VNull; tea] 1%nat VNull);
    [reflexivity | reflexivity | by right].
Defined.


Lemma bind_unfold {A B} (m : M A) (f : A -> M B) t :
  (m ≫= f) t = match m t with
               | (t', Ok a) => f a t'
               | (t', Err e) => (t', Err e)
               end.
Proof. done. Qed.





Lemma line_item_raw_quantity_Some item q :
  line_item_raw_quantity item = Some q ->
  exists o s, item = VObject o /\ q = default VUndefined (o !! "quantity") /\
              ToString (default VUndefined (o !! "product_id")) = Ok s.
Proof.
  destruct item as [| | | | | |o]; try done. simpl.
  destruct (o !! "product_id") as [[| | |n| | |]|] eqn:Hp; try done;
    intros [= <-]; eexists o, _; (split_and!; [done | done | by rewrite Hp]).
Qed.

Lemma line_item_callback_raw admin o s t :
  ToString (default VUndefined (o !! "product_id")) = Ok s ->
  exists t' out,
    line_item_callback admin (VObject o) t = (t', Ok out) /\
    derived_from (VObject o) out.
Proof.
  intros Hs.
  assert (exists t' img,
    (match admin with
     | Some a =>
         pid ← lift (get "product_id" (VObject o));
         if truthy pid then fetchProductImage a pid else ret VUndefined
     | None => ret VUndefined
     end) t = (t', Ok img)) as (t' & img & Himg).
  { destruct admin as [a|]; [|by eexists _, _].
    rewrite get_object, bind_lift_Ok. destruct (truthy _); [|by eexists _, _].
    rewrite fetchProductImage_outcome, Hs. cbv zeta. by eexists _, _. }
  eexists t', _. split.
  - unfold line_item_callback. rewrite (bind_Ok _ _ _ _ _ Himg).
    rewrite !get_object, !bind_lift_Ok. reflexivity.
  - by split_and!.
Qed.

Lemma callbacks_fulfil_raw admin items qs : forall t,
  Forall2 (fun item q => line_item_raw_quantity item = Some q) items qs ->
  exists t' outs,
    array_map (fun item => async (line_item_callback admin item)) items t
      = (t', Ok (Ok <$> outs)) /\
    Forall2 derived_from items outs /\
    quantity <$> outs = qs.
Proof.
  intros t H. revert t.
  induction H as [|item q items qs Hq _ IH]; intros t.
  - by exists t, [].
  - apply line_item_raw_quantity_Some in Hq as (o & s & -> & -> & Hs).
    destruct (line_item_callback_raw admin o s t Hs) as (t1 & out & Hrun & Hder).
    destruct (IH t1) as (t2 & outs & Hruns & Hders & Hqs).
    exists t2, (out :: outs). split_and!.
    + simpl. rewrite (bind_Ok _ _ t t1 (Ok out)); [|unfold async; by rewrite Hrun].
      by rewrite (bind_Ok _ _ _ _ _ Hruns).
    + by constructor.
    + simpl. f_equal; [|done]. destruct Hder as (_ & _ & Hquantity & _).
      simpl in Hquantity. by injection Hquantity.
Qed.

Lemma reduce_quantity outs : forall acc,
  reduce (fun sum item => js_add sum (quantity item)) acc outs
  = reduce js_add acc (quantity <$> outs).
Proof.
  induction outs as [|out outs IH]; intros acc; simpl; [done|].
  destruct (js_add acc (quantity out)); simpl; [apply IH | done].
Qed.

Lemma transform_raw order items qs shopDomain admin t :
  order_line_items order = Some items ->
  mapM line_item_raw_quantity items = Some qs ->
  exists t' outs,
    Forall2 derived_from items outs /\
    forall sched,
      transformOrderToNotification sched order shopDomain admin t =
      (t', (fun count =>
              {| created_at := opt_get "created_at" order;
                 currency := opt_get "currency" order;
                 total_price := opt_get "total_price" order;
                 subtotal_price := opt_get "subtotal_price" order;
                 total_tax := opt_get "total_tax" order;
                 total_discounts := opt_get "total_discounts" order;
                 item_count := count;
                 line_items := outs;
                 shop := if truthy (optional_string shopDomain)
                         then optional_string shopDomain
                         else js_or (opt_get "shop_domain" order) (VString "");
                 test := js_or (opt_get "test" order) (VBool false);
                 total_weight := opt_get "total_weight" order;
                 tags := opt_get "tags" order;
                 source_name := opt_get "source_name" order |})
           <$> sum_quantities qs).
Proof.
  intros Hitems Hqs. apply mapM_Some in Hqs.
  apply order_line_items_Some in Hitems as (o & -> & Harr).
  destruct (callbacks_fulfil_raw admin items qs
              (t ++ [Invoke "transformOrderToNotification"]) Hqs)
    as (t' & outs & Hrun & Hder & Hquantities).
  exists t', outs. split; [done|].
  intros sched. unfold transformOrderToNotification.
  rewrite bind_emit, !get_object, bind_lift_Ok, Harr, bind_lift_Ok.
  rewrite (bind_Ok _ _ _ _ _ Hrun). unfold await.
  rewrite Promise_all_fulfilled, bind_lift_Ok.
  rewrite reduce_quantity, Hquantities. unfold sum_quantities.
  destruct (reduce js_add _ qs) as [count|e]; [|done].
  rewrite !bind_lift_Ok.
  destruct (truthy (optional_string shopDomain)); reflexivity.
Qed.

Lemma string_app_nil_r (s : string) : s +:+ "" = s.
Proof.
  induction s as [|a s IH]; [done|].
  change (String a (s +:+ "") = String a s). by rewrite IH.
Qed.

Lemma string_app_assoc (s1 s2 s3 : string) :
  s1 +:+ s2 +:+ s3 = (s1 +:+ s2) +:+ s3.
Proof.
  induction s1 as [|a s1 IH]; [done|].
  change (String a (s1 +:+ s2 +:+ s3) = String a ((s1 +:+ s2) +:+ s3)).
  by rewrite IH.
Qed.

Lemma reduce_strings ss : forall acc,
  reduce js_add (VString acc) (VString <$> ss)
  = Ok (VString (acc +:+ concat_strings ss)).
Proof.
  induction ss as [|s ss IH]; intros acc; simpl.
  - by rewrite string_app_nil_r.
  - change (js_add (VString acc) (VString s)) with (Ok (VString (acc +:+ s))).
    simpl. rewrite IH. by rewrite string_app_assoc.
Qed.

(** X7.  The item count is computed with JavaScript's [+], starting from
    the number [0], on the quantities as they stand in the payload.  When
    the line items are objects (each with no product, or a numeric
    [product_id]) and every quantity is a string, the transformation
    returns, and [item_count] is not a number but the string that starts
    with [0] and continues with the quantities one after the other. *)
Theorem string_quantities_are_concatenated
    order shopDomain admin t items s ss :
  order_line_items order = Some items ->
  mapM line_item_raw_quantity items = Some (VString <$> (s :: ss)) ->
  exists t' n,
    (forall sched,
       transformOrderToNotification sched order shopDomain admin t = (t', Ok n)) /\
    item_count n = VString ("0" +:+ concat_strings (s :: ss)).
Proof.
  intros Hitems Hqs.
  destruct (transform_raw order items _ shopDomain admin t Hitems Hqs)
    as (t' & outs & _ & Hrun).
  unfold sum_quantities in Hrun. simpl in Hrun.
  change (js_add (VNumber (Int 0)) (VString s)) with (Ok (VString ("0" +:+ s))) in Hrun.
  simpl in Hrun. rewrite reduce_strings in Hrun.
  eexists t', _. split; [exact Hrun|]. simpl.
  by rewrite string_app_assoc.
Qed.

Lemma string_quantities_are_concatenated_witness :
  exists t' n,
    (forall sched,
       transformOrderToNotification sched quoted_basket None None [] = (t', Ok n)) /\
    item_count n = VString "021".
Proof.
  apply (string_quantities_are_concatenated quoted_basket None None []
           [VObject (list_to_map [("name", VString "Mug"); ("quantity", VString "2")]);
            VObject (list_to_map [("name", VString "Tea"); ("quantity", VString "1")])]
           "2" ["1"]); reflexivity.
Defined.

Lemma reduce_NaN qs :
  Forall number_or_missing qs ->
  reduce js_add (VNumber NaN) qs = Ok (VNumber NaN).
Proof.
  induction 1 as [|q qs [->|[n ->]] _ IH]; simpl; [done|apply IH|].
  by destruct n.
Qed.

Lemma reduce_missing qs : forall acc,
  Forall number_or_missing qs -> VUndefined ∈ qs ->
  reduce js_add (VNumber acc) qs = Ok (VNumber NaN).
Proof.
  induction qs as [|q qs IH]; intros acc Hall Hin.
  - by apply elem_of_nil in Hin.
  - apply Forall_cons in Hall as [Hq Hall].
    apply elem_of_cons in Hin as [<-|Hin].
    + destruct acc; simpl; by apply reduce_NaN.
    + destruct Hq as [->|[n ->]].
      * destruct acc; simpl; by apply reduce_NaN.
      * simpl. change (js_add (VNumber acc) (VNumber n))
          with (Ok (VNumber (number_add acc n))).
        simpl. by apply IH.
Qed.

(** X8.  When the line items are objects whose quantities are numbers
    or absent, and at least one quantity is absent, the transformation
    still returns: the sum becomes [NaN], so [item_count] is [NaN] and the
    JSON that is sent carries [null] under [item_count]. *)
Theorem missing_quantity_gives_NaN order shopDomain admin t items qs :
  order_line_items order = Some items ->
  mapM line_item_raw_quantity items = Some qs ->
  Forall number_or_missing qs ->
  VUndefined ∈ qs ->
  exists t' n j,
    (forall sched,
       transformOrderToNotification sched order shopDomain admin t = (t', Ok n)) /\
    item_count n = VNumber NaN /\
    stringify (notification_value n) = Some (JObject j) /\
    j !! "item_count" = Some JNull.
Proof.
  intros Hitems Hqs Hall Hin.
  destruct (transform_raw order items _ shopDomain admin t Hitems Hqs)
    as (t' & outs & _ & Hrun).
  unfold sum_quantities in Hrun. rewrite (reduce_missing qs _ Hall Hin) in Hrun.
  eexists t', _, _. split; [exact Hrun|]. split; [done|].
  split; [reflexivity|]. rewrite lookup_omap. vm_compute. reflexivity.
Qed.

Lemma missing_quantity_gives_NaN_witness :
  exists t' n j,
    (forall sched,
       transformOrderToNotification sched unmetered None None [] = (t', Ok n)) /\
    item_count n = VNumber NaN /\
    stringify (notification_value n) = Some (JObject j) /\
    j !! "item_count" = Some JNull.
Proof.
  apply (missing_quantity_gives_NaN unmetered None None []
           [mug; VObject {[ "name" := VString "Sample" ]}]
           [VNumber (Int 2); VUndefined]);
    [reflexivity | reflexivity | | ].
  - constructor; [right; by eexists|]. constructor; [by left|]. constructor.
  - constructor. constructor.
Defined.

Lemma omap_list_to_map_members (l : list (string * value)) k :
  is_Some (omap stringify (list_to_map l : gmap string value) !! k) -> k ∈ l.*1.
Proof.
  rewrite lookup_omap. intros [j Hj].
  destruct (list_to_map l !! k) as [v|] eqn:Hk; [|done].
  apply elem_of_list_to_map_2 in Hk. apply list_elem_of_fmap. by exists (k, v).
Qed.

Lemma line_item_json_members i :
  members_among line_item_members (default JNull (stringify (line_item_value i))).
Proof.
  eexists. split; [reflexivity|]. intros k Hk.
  by apply omap_list_to_map_members in Hk.
Qed.

Lemma notification_body_allow_listed n :
  allow_listed_body (stringify (VObject {[ "data" := notification_value n ]})).
Proof.
  rewrite stringify_data. eexists _, _. split; [reflexivity|]. split_and!.
  - intros k Hk. by apply omap_list_to_map_members in Hk.
  - rewrite lookup_omap.
    replace (_ !! "line_items") with (Some (VArray (line_item_value <$> line_items n)))
      by (vm_compute; reflexivity).
    reflexivity.
  - apply Forall_forall. intros j Hj.
    apply list_elem_of_fmap in Hj as (v & -> & Hv).
    apply list_elem_of_fmap in Hv as (i & -> & _).
    apply line_item_json_members.
Qed.

Lemma publishOrderNotification_failed_transform
    world sched order shopDomain admin t t1 e :
  transformOrderToNotification sched order shopDomain admin
    (t ++ [Invoke "publishOrderNotification"]) = (t1, Err e) ->
  publishOrderNotification world sched order shopDomain admin t = (t1, Err e).
Proof.
  intros H. unfold publishOrderNotification.
  rewrite bind_emit, try_catch_rethrow. rewrite bind_unfold. by rewrite H.
Qed.

(** X9.  Whatever the order, the shop, the admin client and the world
    are, [publishOrderNotification] sends at most one request, and the
    body of a request it sends is a JSON object with the single member
    [data], an object whose member names are among the thirteen names of
    the notification and whose [line_items] is an array of objects whose
    member names are among the thirteen names of a notification line
    item: no other property name of the payload ever leaves. *)
Theorem every_sent_body_is_allow_listed world sched order shopDomain admin t :
  exists sent,
    fetches (publishOrderNotification world sched order shopDomain admin t).1
    = fetches t ++ sent /\
    (length sent <= 1)%nat /\
    Forall (fun req => allow_listed_body (body req)) sent.
Proof.
  destruct (transformOrderToNotification sched order shopDomain admin
              (t ++ [Invoke "publishOrderNotification"])) as [t1 [n|e]] eqn:Hrun.
  - rewrite (publishOrderNotification_fetches _ _ _ _ _ _ _ _ Hrun).
    eexists. split; [reflexivity|].
    destruct (api_key world) as [key|]; simpl; (split; [lia|]); [|done].
    constructor; [|done]. apply notification_body_allow_listed.
  - rewrite (publishOrderNotification_failed_transform _ _ _ _ _ _ _ _ Hrun).
    exists []. split_and!; [|simpl; lia|done].
    pose proof (quiet_transform sched order shopDomain admin
                  (t ++ [Invoke "publishOrderNotification"])) as Hq.
    rewrite Hrun in Hq. simpl in *. rewrite Hq, fetches_app. simpl.
    by rewrite !app_nil_r.
Qed.

(** X10.  For an order with well-formed line items the transformation
    returns, and the nine order-level properties [created_at], [currency],
    [total_price], [subtotal_price], [total_tax], [total_discounts],
    [total_weight], [tags] and [source_name] stand in the JSON of the
    notification exactly as they stand in the order, neither converted nor
    defaulted; a property the order lacks is absent from the JSON. *)
Theorem passthrough_fields_are_copied order shopDomain admin t qs :
  order_quantities order = Some qs ->
  exists t' n j,
    (forall sched,
       transformOrderToNotification sched order shopDomain admin t = (t', Ok n)) /\
    stringify (notification_value n) = Some (JObject j) /\
    Forall (fun k => j !! k = stringify (opt_get k order)) passthrough_fields.
Proof.
  unfold order_quantities. intros H.
  destruct (order_line_items order) as [items|] eqn:Hitems; [|done].
  simpl in H.
  destruct (transform_OrderRecord order items qs shopDomain admin t Hitems H)
    as (t' & outs & Hrun & _).
  eexists t', _, _. split; [exact Hrun|]. split; [reflexivity|].
  unfold passthrough_fields.
  repeat (constructor; [rewrite lookup_omap; vm_compute; reflexivity|]).
  constructor.
Qed.

Lemma passthrough_fields_are_copied_witness :
  exists t' n j,
    (forall sched,
       transformOrderToNotification sched basket None (Some catalogue) []
       = (t', Ok n)) /\
    stringify (notification_value n) = Some (JObject j) /\
    j !! "total_price" = Some (JString "34.49") /\ j !! "tags" = None.
Proof.
  destruct (passthrough_fields_are_copied basket None (Some catalogue) [] [2; 1; 3]
              eq_refl) as (t' & n & j & Hrun & Hj & Hall).
  exists t', n, j. split; [exact Hrun|]. split; [exact Hj|].
  split.
  - exact (proj1 (Forall_lookup _ _) Hall 2%nat "total_price" eq_refl).
  - exact (proj1 (Forall_lookup _ _) Hall 7%nat "tags" eq_refl).
Defined.

(** X11.  [fetchProductImage] catches every failure of the lookup, but
    its [catch] block prints the product id again.  So it throws exactly
    when the product id has no string form (an object with a property
    [toString], or an array that holds one), and then it throws a
    [TypeError] before any query was sent; on every other product id it
    returns, whatever the admin client does. *)
Theorem fetchProductImage_throws_exactly_when a pid t :
  (forall e, (fetchProductImage a pid t).2 = Err e <-> ToString pid = Err e) /\
  (forall e, ToString pid = Err e ->
     e = TypeError /\
     (fetchProductImage a pid t).1 = t ++ [Invoke "fetchProductImage"]).
Proof.
  rewrite fetchProductImage_outcome. cbv zeta.
  destruct (ToString pid) as [s|e'] eqn:E; simpl.
  - split; [|done]. intros e. split; [done|done].
  - split.
    + intros e. split; congruence.
    + intros e [= <-]. split; [by eapply ToString_Err | done].
Qed.

(** X12.  For a request whose signature validates, the publishing route
    does what [publishOrderNotification] does on the decoded body, the
    shop of the request and the admin client of its session, with the same
    history: an error of the publisher is thrown again unchanged, and when
    the publisher returns, the route answers with an empty 200 response
    that does not depend on what the publisher returned. *)
Theorem action_rethrows_publish_failures
    world sched secret sign decode session request t :
  request_signature request = sign secret (request_body request) ->
  WebhooksOrdersCreate.action world sched secret sign decode session request t =
  match publishOrderNotification world sched (decode (request_body request))
          (Some (request_shop request)) (session (request_shop request)) t with
  | (t', Ok _) => (t', Ok new_Response)
  | (t', Err e) => (t', Err e)
  end.
Proof.
  intros Hsig. apply String.eqb_eq in Hsig.
  unfold WebhooksOrdersCreate.action, authenticate_webhook. rewrite Hsig.
  rewrite (bind_Ok _ _ t t _ eq_refl). cbn [ctx_payload ctx_shop ctx_admin].
  rewrite try_catch_rethrow, bind_unfold.
  by destruct (publishOrderNotification _ _ _ _ _ _) as [t' [r|e]].
Qed.

Lemma action_rethrows_publish_failures_witness :
  request_signature order_created = toy_sign "s3cret" (request_body order_created) /\
  (WebhooksOrdersCreate.action garbled [] "s3cret" toy_sign
     (fun _ => mug_order) (fun _ => Some catalogue) order_created []).2
  = Err SyntaxError.
Proof.
  split; [reflexivity|].
  rewrite (action_rethrows_publish_failures garbled [] "s3cret" toy_sign
             (fun _ => mug_order) (fun _ => Some catalogue) order_created []
             eq_refl).
  reflexivity.
Defined.

Lemma replace_char_absent c r s : occurs c s = false -> replace_char c r s = s.
Proof.
  induction s as [|x s IH]; simpl; [done|].
  destruct (Ascii.eqb x c); simpl; [done|]. intros H. by rewrite IH.
Qed.

Lemma replace_char_first c r a rest :
  occurs c a = false ->
  replace_char c r (a +:+ String c rest) = a +:+ r +:+ rest.
Proof.
  induction a as [|x a IH]; intros H.
  - change (replace_char c r (String c rest) = r +:+ rest).
    simpl. by rewrite Ascii.eqb_refl.
  - simpl in H. apply orb_false_elim in H as [Hx Ha].
    change (replace_char c r (String x (a +:+ String c rest))
            = String x (a +:+ r +:+ rest)).
    simpl. by rewrite Hx, IH.
Qed.

Lemma proc_bind_Returned {A B} (m : Proc A) (f : A -> Proc B) t t' a :
  m t = (t', Returned a) -> (m ≫= f) t = f a t'.
Proof. intros H. unfold mbind, Proc_bind, proc_bind. by rewrite H. Qed.

Lemma proc_bind_Threw {A B} (m : Proc A) (f : A -> Proc B) t t' e :
  m t = (t', Threw e) -> (m ≫= f) t = (t', Threw e).
Proof. intros H. unfold mbind, Proc_bind, proc_bind. by rewrite H. Qed.

(** The upsert request for a shop identifier. *)
Lemma updateHookdeckConnection_run ops hookdeck shopDomain t :
  exists request,
    let shopId := replace_char "."%char "-" shopDomain in
    opt_get "name" request = VString (shopId +:+ "_order-created") /\
    opt_get "name" (opt_get "source" request) = VString (shopId +:+ "_order-created") /\
    opt_get "name" (opt_get "destination" request) = VString (shopId +:+ "_ably") /\
    opt_get "url" (opt_get "destination" request)
    = VString ("https://rest.ably.io/channels/" +:+ shopId +:+ "/messages") /\
    updateHookdeckConnection ops hookdeck shopDomain t =
    (t ++ [ConnectionUpsert (token hookdeck) request],
     match ops_upsert ops t (token hookdeck) request with
     | Err e => Threw e
     | Ok connection =>
         match get "source" connection ≫= get "url" with
         | Ok u => Returned u
         | Err e => Threw e
         end
     end).
Proof.
  unfold updateHookdeckConnection. cbv zeta.
  match goal with |- context [connection_upsert ops hookdeck ?r] => exists r end.
  split_and!; [vm_compute; reflexivity..|].
  unfold mbind at 1, Proc_bind at 1, proc_bind at 1, connection_upsert at 1.
  destruct (ops_upsert ops t _ _) as [connection|e]; [|reflexivity].
  unfold mbind, Proc_bind, proc_bind, proc_lift, result_bind.
  destruct (get "source" connection) as [source|e]; [|reflexivity].
  by destruct (get "url" source).
Qed.

Lemma replace_dot_first a rest :
  occurs "."%char a = false ->
  replace_char "."%char "-" (a +:+ "." +:+ rest) = a +:+ "-" +:+ rest.
Proof. apply (replace_char_first "."%char "-" a rest). Qed.

(** X13.  The helpers derive the shop identifier with
    [shopDomain.replace(".", "-")], which replaces the first dot only.
    For a domain such as [a.b.c], [updateHookdeckConnection] on its own
    names the connection and the Ably channel after [a-b.c]; but
    [createOrdersWebhook] replaces once itself and passes the result on, so
    the connection it upserts is named after [a-b-c], with the first two
    dots replaced and any further dot of [c] left in place. *)
Theorem shop_identifier_replaces_two_dots ops hookdeck graphql a b c t :
  occurs "."%char a = false ->
  occurs "."%char b = false ->
  let domain := a +:+ "." +:+ b +:+ "." +:+ c in
  (exists request,
     (updateHookdeckConnection ops hookdeck domain t).1
     = t ++ [ConnectionUpsert (token hookdeck) request] /\
     opt_get "name" request
     = VString ((a +:+ "-" +:+ b +:+ "." +:+ c) +:+ "_order-created") /\
     opt_get "url" (opt_get "destination" request)
     = VString ("https://rest.ably.io/channels/"
                +:+ (a +:+ "-" +:+ b +:+ "." +:+ c) +:+ "/messages")) /\
  (exists request rest,
     (createOrdersWebhook ops hookdeck graphql domain t).1
     = t ++ ConnectionUpsert (token hookdeck) request :: rest /\
     opt_get "name" request
     = VString ((a +:+ "-" +:+ b +:+ "-" +:+ c) +:+ "_order-created") /\
     opt_get "url" (opt_get "destination" request)
     = VString ("https://rest.ably.io/channels/"
                +:+ (a +:+ "-" +:+ b +:+ "-" +:+ c) +:+ "/messages")).
Proof.
  intros Ha Hb domain. split.
  - destruct (updateHookdeckConnection_run ops hookdeck domain t)
      as (request & Hname & _ & _ & Hurl & Hrun).
    exists request. rewrite Hrun. unfold domain in *.
    rewrite (replace_dot_first a _ Ha) in Hname, Hurl. by split_and!.
  - unfold createOrdersWebhook. cbv zeta. unfold domain.
    rewrite (replace_dot_first a _ Ha).
    destruct (updateHookdeckConnection_run ops hookdeck
                (a +:+ "-" +:+ b +:+ "." +:+ c) t)
      as (request & Hname & _ & _ & Hurl & Hrun).
    assert (occurs "."%char (a +:+ "-" +:+ b) = false) as Hab.
    { clear -Ha Hb. induction a as [|x a IH]; simpl in *; [done|].
      apply orb_false_elim in Ha as [Hx Ha]. rewrite Hx. simpl. by apply IH. }
    assert (a +:+ "-" +:+ b +:+ "." +:+ c = (a +:+ "-" +:+ b) +:+ "." +:+ c) as Hassoc.
    { by rewrite <- !string_app_assoc. }
    rewrite Hassoc, (replace_dot_first _ _ Hab), <- !string_app_assoc in Hname, Hurl.
    exists request. unfold mbind, Proc_bind, proc_bind. rewrite Hrun.
    destruct (ops_upsert ops t _ _) as [connection|e].
    + destruct (get "source" connection ≫= get "url") as [u|e].
      * eexists. split; [|by rewrite <- ?string_app_assoc].
        unfold graphql_request. simpl. by rewrite <- app_assoc.
      * exists []. by rewrite <- ?string_app_assoc.
    + exists []. by rewrite <- ?string_app_assoc.
Qed.

(** X14.  [createOrdersWebhook] upserts the Hookdeck connection first
    and creates the Shopify subscription second.  If the upsert fails, or
    the connection it returns has no source to read a URL from, the call
    throws and no GraphQL request is made; otherwise exactly one request
    follows, the [webhookSubscriptionCreate] mutation for the topic
    [ORDERS_CREATE], whose callback URL is the URL of the source that the
    upsert returned. *)
Theorem subscription_follows_connection ops hookdeck graphql shopDomain t :
  exists request,
    let upsert := ConnectionUpsert (token hookdeck) request in
    match ops_upsert ops t (token hookdeck) request with
    | Err e =>
        createOrdersWebhook ops hookdeck graphql shopDomain t = (t ++ [upsert], Threw e)
    | Ok connection =>
        match get "source" connection ≫= get "url" with
        | Err e =>
            createOrdersWebhook ops hookdeck graphql shopDomain t
            = (t ++ [upsert], Threw e)
        | Ok callbackUrl =>
            exists options,
              (createOrdersWebhook ops hookdeck graphql shopDomain t).1
              = t ++ [upsert; GraphqlRequest webhookSubscriptionCreate_document options] /\
              opt_get "topic" (opt_get "variables" options) = VString "ORDERS_CREATE" /\
              opt_get "callbackUrl"
                (opt_get "webhookSubscription" (opt_get "variables" options))
              = callbackUrl
        end
    end.
Proof.
  destruct (updateHookdeckConnection_run ops hookdeck
              (replace_char "."%char "-" shopDomain) t)
    as (request & _ & _ & _ & _ & Hrun).
  exists request. cbv zeta.
  assert (createOrdersWebhook ops hookdeck graphql shopDomain t
          = proc_bind (updateHookdeckConnection ops hookdeck
                         (replace_char "."%char "-" shopDomain))
              (fun webhookUrl =>
                 graphql_request graphql webhookSubscriptionCreate_document
                   (VObject {[ "variables" := VObject (list_to_map [
                      ("topic", VString "ORDERS_CREATE");
                      ("webhookSubscription", VObject (list_to_map [
                         ("callbackUrl", webhookUrl);
                         ("format", VString "JSON")]))]) ]})) t) as Hc by done.
  unfold proc_bind in Hc. rewrite Hrun in Hc. rewrite Hc. clear Hc Hrun.
  destruct (ops_upsert ops t _ _) as [connection|e]; [|done].
  destruct (get "source" connection ≫= get "url") as [u|e]; [|done].
  eexists. split.
  { unfold graphql_request. simpl. by rewrite <- app_assoc. }
  split; vm_compute; reflexivity.
Qed.

Lemma shop_identifier_replaces_two_dots_witness :
  exists request rest,
    (createOrdersWebhook demo_ops demo_client demo_graphql "demo.myshopify.com" []).1
    = ConnectionUpsert "hk_test" request :: rest /\
    opt_get "name" request = VString "demo-myshopify-com_order-created".
Proof.
  destruct (shop_identifier_replaces_two_dots demo_ops demo_client demo_graphql
              "demo" "myshopify" "com" [] eq_refl eq_refl)
    as [_ (request & rest & Hrun & Hname & _)].
  exists request, rest. split; [exact Hrun | exact Hname].
Defined.

(** X15.  [validatePrerequisites] returns exactly when the three
    variables [HOOKDECK_API_KEY], [SHOPIFY_API_SECRET] and [ABLY_API_KEY]
    are set to non-empty strings and [shopify.app.toml] can be read, and
    it then returns the three values.  In every other case the process
    exits with code 1; it never throws.  The file is read only after the
    three variables were found, so a missing variable ends the run before
    the file system is touched. *)
Theorem prerequisites_are_checked_before_the_file ops t :
  validatePrerequisites ops t =
  match setting ops "HOOKDECK_API_KEY", setting ops "SHOPIFY_API_SECRET",
        setting ops "ABLY_API_KEY" with
  | Some key, Some secret, Some ably =>
      (t ++ [FileRead "shopify.app.toml"],
       match ops_read ops t "shopify.app.toml" with
       | Ok _ => Returned {| apiKey := key; shopifySecret := secret;
                             ablyApiKey := ably |}
       | Err _ => Exited 1
       end)
  | _, _, _ => (t, Exited 1)
  end.
Proof.
  unfold validatePrerequisites, getShopifyApiSecret, setting.
  destruct (ops_env ops !! "HOOKDECK_API_KEY") as [key|]; [|done].
  destruct (String.eqb key ""); [done|].
  unfold mbind at 1, Proc_bind at 1, proc_bind at 1.
  destruct (ops_env ops !! "SHOPIFY_API_SECRET") as [secret|]; [|done].
  destruct (String.eqb secret ""); [done|]. simpl.
  destruct (ops_env ops !! "ABLY_API_KEY") as [ably|]; [|done].
  destruct (String.eqb ably ""); [done|].
  unfold mbind, Proc_bind, proc_bind, proc_try, readFileSync, mret, Proc_ret,
    proc_ret, process_exit. simpl.
  by destruct (ops_read ops t _).
Qed.

Lemma source_url_of_outcome response t :
  (source_url_of response t).1 = t /\
  match (source_url_of response t).2 with
  | Returned u =>
      truthy u = true /\ ok response = true /\
      exists connection source,
        json_body response = Some connection /\
        get "source" connection = Ok source /\ get "url" source = Ok u
  | Threw _ => True
  | Exited code => code = 1
  end.
Proof.
  unfold source_url_of. destruct (ok response); simpl; [|done].
  unfold mbind, Proc_bind, proc_bind, proc_throw, proc_lift, mret, Proc_ret,
    proc_ret, process_exit.
  destruct (json_body response) as [connection|]; simpl; [|done].
  destruct (get "source" connection) as [source|] eqn:Hs; simpl; [|done].
  destruct (get "url" source) as [u|] eqn:Hu; simpl; [|done].
  destruct (truthy u) eqn:Ht; simpl; [|done].
  split; [done|]. split_and!; [done..|]. by exists connection, source.
Qed.

Lemma put_then_source_url ops req t :
  let run := proc_try (response ← proc_fetch ops req; source_url_of response)
               (fun _ => process_exit 1) t in
  run.1 = t ++ [HttpCall req] /\
  match run.2 with
  | Returned u =>
      truthy u = true /\
      exists response connection source,
        ops_fetch ops t req = FetchResolves response /\
        ok response = true /\
        json_body response = Some connection /\
        get "source" connection = Ok source /\ get "url" source = Ok u
  | Threw _ => False
  | Exited code => code = 1
  end.
Proof.
  cbv zeta. unfold proc_try, mbind, Proc_bind, proc_bind, proc_fetch, process_exit.
  destruct (ops_fetch ops t req) as [e|response] eqn:Hf; simpl; [done|].
  destruct (source_url_of_outcome response (t ++ [HttpCall req])) as [H1 H2].
  destruct (source_url_of response (t ++ [HttpCall req])) as [t' [u|e|code]];
    simpl in *; subst; [|done..].
  destruct H2 as (Ht & Hok & connection & source & Hj & Hs & Hu).
  split_and!; [done..|]. by exists response, connection, source.
Qed.

(** X16.  [createHookdeckConnection] sends exactly one request, a [PUT]
    to the connections endpoint of the Hookdeck API with the bearer key,
    whatever happens next.  It returns only a truthy source URL, read from
    the JSON body of a response with a status inside 200..299; on a
    network failure, any other status, a body that is not JSON, a
    connection without a source, or a missing or empty source URL the
    process exits with code 1.  It never throws. *)
Theorem createHookdeckConnection_returns_a_source_url ops apiKey shopifySecret t :
  let run := createHookdeckConnection ops apiKey shopifySecret t in
  exists req,
    run.1 = t ++ [HttpCall req] /\
    method req = "PUT" /\
    url req = "https://api.hookdeck.com/2025-07-01/connections" /\
    headers req !! "Authorization" = Some ("Bearer " +:+ apiKey) /\
    match run.2 with
    | Returned sourceUrl =>
        truthy sourceUrl = true /\
        exists response connection source,
          ops_fetch ops t req = FetchResolves response /\
          ok response = true /\
          json_body response = Some connection /\
          get "source" connection = Ok source /\
          get "url" source = Ok sourceUrl
    | Threw _ => False
    | Exited code => code = 1
    end.
Proof.
  cbv zeta. unfold createHookdeckConnection.
  match goal with |- context [proc_fetch ops ?r] => exists r end.
  split_and!; [|done..|]; apply put_then_source_url.
Qed.

Lemma split_char_absent c s : occurs c s = false -> split_char c s = [s].
Proof.
  induction s as [|x s IH]; simpl; [done|]. intros H.
  apply orb_false_elim in H as [Hx Hs]. rewrite Hx, (IH Hs). done.
Qed.

Lemma split_char_first c a rest :
  occurs c a = false ->
  split_char c (a +:+ String c rest) = a :: split_char c rest.
Proof.
  induction a as [|x a IH]; intros H.
  - change (String.app EmptyString (String c rest)) with (String c rest).
    simpl. by rewrite Ascii.eqb_refl.
  - simpl in H. apply orb_false_elim in H as [Hx Ha].
    change (String.app (String x a) (String c rest))
      with (String x (a +:+ String c rest)).
    simpl. by rewrite Hx, (IH Ha).
Qed.

Lemma split_char_colon a rest :
  occurs ":"%char a = false ->
  split_char ":"%char (a +:+ ":" +:+ rest) = a :: split_char ":"%char rest.
Proof. apply (split_char_first ":"%char a rest). Qed.

Lemma proc_try_exit {A} (m : Proc A) t e :
  m t = (t, Threw e) ->
  proc_try m (fun _ => process_exit 1) t = (t, Exited 1).
Proof. unfold proc_try. by intros ->. Qed.

(** X17.  [createAblyConnection] takes the name and the secret of the
    Ably key from [ablyApiKey.split(":")].  A key with no colon, a key
    that starts with a colon, and a key with nothing between its first
    colon and its end or its second colon have an empty or missing part:
    the process exits with code 1 and no request is sent. *)
Theorem ably_key_needs_both_parts ops apiKey ablyApiKey t :
  (occurs ":"%char ablyApiKey = false \/
   (exists rest, ablyApiKey = ":" +:+ rest) \/
   (exists name rest, occurs ":"%char name = false /\
      (ablyApiKey = name +:+ ":" \/ ablyApiKey = name +:+ "::" +:+ rest))) ->
  createAblyConnection ops apiKey ablyApiKey t = (t, Exited 1).
Proof.
  intros H. unfold createAblyConnection. cbv zeta.
  assert (missing (split_char ":"%char ablyApiKey !! 0%nat)
          || missing (split_char ":"%char ablyApiKey !! 1%nat) = true) as ->;
    [|done].
  destruct H as [H|[[rest ->]|(name & rest & Hn & [-> | ->])]].
  - rewrite (split_char_absent _ _ H). simpl. apply orb_true_r.
  - done.
  - rewrite (split_char_first ":"%char name "" Hn). simpl. apply orb_true_r.
  - change (name +:+ "::" +:+ rest) with (name +:+ ":" +:+ (":" +:+ rest)).
    rewrite (split_char_colon _ _ Hn). simpl. apply orb_true_r.
Qed.

(** X18.  For a key [name:secret], or [name:secret:more], with a
    non-empty [name] and [secret], [createAblyConnection] sends exactly one
    request, whose connection authenticates to Ably with user name [name]
    and password [secret]: what follows a second colon is dropped.  The
    call then returns a truthy source URL or the process exits with code
    1; it never throws. *)
Theorem ably_key_is_split_at_the_colons ops apiKey name secret rest t :
  occurs ":"%char name = false ->
  occurs ":"%char secret = false ->
  name <> "" -> secret <> "" ->
  (rest = "" \/ exists more, rest = ":" +:+ more) ->
  let run := createAblyConnection ops apiKey (name +:+ ":" +:+ secret +:+ rest) t in
  exists connection,
    run.1 = t ++ [HttpCall (put_connections apiKey connection)] /\
    opt_get "auth" (opt_get "config" (opt_get "destination" connection))
    = VObject (list_to_map [("username", VString name);
                            ("password", VString secret)]) /\
    match run.2 with
    | Returned sourceUrl => truthy sourceUrl = true
    | Threw _ => False
    | Exited code => code = 1
    end.
Proof.
  intros Hn Hs Hne Hse Hrest. cbv zeta. unfold createAblyConnection. cbv zeta.
  assert (exists more, split_char ":"%char (name +:+ ":" +:+ secret +:+ rest)
                       = name :: secret :: more) as [more ->].
  { rewrite (split_char_colon _ _ Hn). destruct Hrest as [->|[more ->]].
    - exists []. by rewrite string_app_nil_r, (split_char_absent _ _ Hs).
    - eexists. by rewrite (split_char_colon _ _ Hs). }
  assert (missing ((name :: secret :: more) !! 0%nat)
          || missing ((name :: secret :: more) !! 1%nat) = false) as ->.
  { simpl. unfold missing. simpl.
    destruct name; [done|]. destruct secret; done. }
  match goal with
  | |- context [put_connections apiKey ?c] =>
      exists c;
      pose proof (put_then_source_url ops (put_connections apiKey c) t) as [H1 H2]
  end.
  cbv zeta in H1, H2. split; [exact H1|]. split; [vm_compute; reflexivity|].
  revert H2.
  match goal with |- match ?r with _ => _ end -> _ => destruct r as [u|e|code] end;
    [by intros [? _]|done..].
Qed.

Lemma lower_case_char_y c :
  lower_case_char c = "y"%char -> c = "y"%char \/ c = "Y"%char.
Proof.
  destruct c as [[] [] [] [] [] [] [] []]; vm_compute; intros H;
    first [discriminate H | by left | by right].
Qed.

Lemma lower_case_char_e c :
  lower_case_char c = "e"%char -> c = "e"%char \/ c = "E"%char.
Proof.
  destruct c as [[] [] [] [] [] [] [] []]; vm_compute; intros H;
    first [discriminate H | by left | by right].
Qed.

Lemma lower_case_char_s c :
  lower_case_char c = "s"%char -> c = "s"%char \/ c = "S"%char.
Proof.
  destruct c as [[] [] [] [] [] [] [] []]; vm_compute; intros H;
    first [discriminate H | by left | by right].
Qed.

(** X19.  [confirm] resolves to [true] exactly for the answers [y] and
    [yes] in any mix of upper and lower case, with nothing before or
    after: ten answers in all, whatever the question. *)
Theorem confirm_accepts_y_and_yes answer question :
  confirm answer question = true <->
  answer ∈ ["y"; "Y"; "yes"; "yeS"; "yEs"; "yES"; "Yes"; "YeS"; "YEs"; "YES"].
Proof.
  split.
  - unfold confirm. intros H. apply orb_true_iff in H as [H|H];
      apply String.eqb_eq in H.
    + destruct answer as [|c1 [|c2 rest]]; simpl in H; [done| |done].
      injection H as H. apply lower_case_char_y in H as [-> | ->]; set_solver.
    + destruct answer as [|c1 [|c2 [|c3 [|c4 rest]]]]; simpl in H; [done..| |done].
      injection H as H1 H2 H3.
      apply lower_case_char_y in H1 as [-> | ->];
        apply lower_case_char_e in H2 as [-> | ->];
        apply lower_case_char_s in H3 as [-> | ->]; set_solver.
  - rewrite !elem_of_cons, elem_of_nil.
    intros H. repeat destruct H as [->|H]; try reflexivity. done.
Qed.

Lemma ably_key_needs_both_parts_witness :
  createAblyConnection demo_ops "hk_test" "appId.keyId" [] = ([], Exited 1).
Proof.
  apply (ably_key_needs_both_parts demo_ops "hk_test" "appId.keyId" []).
  left. reflexivity.
Defined.

Lemma ably_key_is_split_at_the_colons_witness :
  exists connection,
    (createAblyConnection demo_ops "hk_test" "appId.keyId:s3cret:extra" []).1
    = [HttpCall (put_connections "hk_test" connection)] /\
    opt_get "auth" (opt_get "config" (opt_get "destination" connection))
    = VObject (list_to_map [("username", VString "appId.keyId");
                            ("password", VString "s3cret")]).
Proof.
  destruct (ably_key_is_split_at_the_colons demo_ops "hk_test" "appId.keyId"
              "s3cret" ":extra" []) as (connection & Hrun & Hauth & _);
    [reflexivity | reflexivity | discriminate | discriminate
    | right; exists "extra"; reflexivity |].
  exists connection. split; [exact Hrun | exact Hauth].
Defined.
